(** * Review comments of the TiCS GitHub action

    A shallow embedding of [src/github/posting/annotations.ts]: the grouping of
    TiCS annotations into review comments ([createReviewComments],
    [findAnnotationInList]) and the protocol that purges the comments of
    earlier runs and posts the new ones ([postReviewComments],
    [getPostedReviewComments], [deletePreviousReviewComments]).

    JavaScript strings are modelled by [string] (sequences of code units,
    compared unit by unit), numbers that hold line numbers and counts by [Z],
    arrays by [list], and an object reference held in an array by the position
    of the object in the array it came from. *)

From Stdlib Require Import ZArith String Ascii List Bool Lia.
From Stdlib Require Import Sorting.Sorted Sorting.Permutation.
From Stdlib Require Import Structures.OrderedTypeEx.
From stdpp Require Import base list strings pretty gmap.

Open Scope string_scope.
Open Scope Z_scope.

(** ** Strings *)

(** [String.prototype.includes]: [c] occurs in [s] as a contiguous substring. *)
Fixpoint includes (s c : string) : bool :=
  String.prefix c s ||
  match s with
  | EmptyString => false
  | String _ s' => includes s' c
  end.

(** [String.prototype.replace] with a string pattern and the empty
    replacement: the first occurrence of [pat] is removed, the rest of the
    string is unchanged. *)
Fixpoint dropString (n : nat) (s : string) : string :=
  match n, s with
  | O, _ => s
  | S n', String _ s' => dropString n' s'
  | S _, EmptyString => EmptyString
  end.

Fixpoint replaceFirst (pat s : string) : string :=
  if String.prefix pat s then dropString (String.length pat) s
  else match s with
       | EmptyString => EmptyString
       | String ch s' => String ch (replaceFirst pat s')
       end.

(** The two code units of the escape [\r\n]. *)
Definition CRLF : string := String "013"%char (String "010"%char EmptyString).

(** Truthiness of the value returned by [Array.prototype.find] over strings:
    [undefined] and the empty string are falsy. *)
Definition truthy (found : option string) : bool :=
  match found with
  | None => false
  | Some s => negb (s =? "")%string
  end.

(** [a === b] on values that are a string or [undefined]. *)
Definition strictEq (a b : option string) : bool :=
  match a, b with
  | None, None => true
  | Some x, Some y => (x =? y)%string
  | _, _ => false
  end.

(** ** Data *)

(** The properties the code reads from an annotation.  The text of a finding
    is in [msg]; [message] is the property [findAnnotationInList] compares,
    [None] when the object has no such property. *)
Record Annotation := mkAnnotation {
  fullPath : string;
  type : string;
  line : Z;
  rule : string;
  level : string;
  category : string;
  msg : string;
  message : option string;
  count : Z
}.

Record ReviewComment := mkReviewComment {
  body : string;
  path : string;
  commentLine : Z
}.

(** The two settings of [ticsConfig] read here. *)
Record TicsConfig := mkTicsConfig {
  projectName : string;
  branchName : string
}.

Definition setCount (a : Annotation) (n : Z) : Annotation :=
  mkAnnotation (fullPath a) (type a) (line a) (rule a) (level a)
               (category a) (msg a) (message a) n.

(** [o.count += n] *)
Definition addCount (n : Z) (a : Annotation) : Annotation :=
  setCount a (count a + n).

(** ** findAnnotationInList *)

(** The predicate of the [findIndex] call, [a] being the element of the list
    and [annotation] the one looked for. *)
Definition sameAnnotation (annotation a : Annotation) : bool :=
  (fullPath a =? fullPath annotation)%string &&
  (type a =? type annotation)%string &&
  (line a =? line annotation) &&
  (rule a =? rule annotation)%string &&
  (level a =? level annotation)%string &&
  (category a =? category annotation)%string &&
  strictEq (message a) (message annotation).

(** [Array.prototype.findIndex]; [None] stands for -1. *)
Fixpoint findIndex {A : Type} (p : A -> bool) (l : list A) : option nat :=
  match l with
  | [] => None
  | x :: l' => if p x then Some O else option_map S (findIndex p l')
  end.

Definition findAnnotationInList (list : list Annotation) (annotation : Annotation)
  : option nat :=
  findIndex (sameAnnotation annotation) list.

(** ** createReviewComments *)

(** [groupedAnnotations] holds references to objects of [annotations]: a
    reference is the position of the object in [annotations]. *)
Definition deref (annotations : list Annotation) (refs : list nat) : list Annotation :=
  omap (fun r => annotations !! r) refs.

(** The test of line 91, [changedFiles.find(c => annotation.fullPath.includes(c))]
    taken as a condition: the annotation is skipped when this is [false]. *)
Definition inChangedFiles (changedFiles : list string) (annotation : Annotation) : bool :=
  truthy (find (fun c => includes (fullPath annotation) c) changedFiles).

(** One call of the [forEach] callback (lines 90-98), on the element at
    position [i].  The count of a duplicate is added to [annotations[index]],
    [index] being the position found in [groupedAnnotations]. *)
Definition groupStep (changedFiles : list string)
    (st : list Annotation * list nat) (i : nat) : list Annotation * list nat :=
  let '(annotations, groupedAnnotations) := st in
  match annotations !! i with
  | None => st
  | Some annotation =>
      if negb (inChangedFiles changedFiles annotation) then st
      else
        match findAnnotationInList (deref annotations groupedAnnotations) annotation with
        | None => (annotations, (groupedAnnotations ++ [i])%list)
        | Some index =>
            (alter (addCount (count annotation)) index annotations, groupedAnnotations)
        end
  end.

Definition groupLoop (changedFiles : list string) (annotations : list Annotation)
  : list Annotation * list nat :=
  fold_left (groupStep changedFiles) (seq 0 (length annotations)) (annotations, []).

(** The comparator of the [sort] call (lines 101-104). *)
Definition compareAnnotations (a b : Annotation) : Z :=
  if (fullPath a =? fullPath b)%string then line a - line b
  else if String.ltb (fullPath b) (fullPath a) then 1 else -1.

Definition compareRefs (annotations : list Annotation) (r1 r2 : nat) : Z :=
  match annotations !! r1, annotations !! r2 with
  | Some a, Some b => compareAnnotations a b
  | _, _ => 0
  end.

(** [Array.prototype.sort] is stable.  For a comparator that is a total
    preorder the result of a stable sort does not depend on the algorithm; it
    is computed here by insertion, each element going before the first one
    it is not after. *)
Section StableSort.
Context {A : Type} (cmp : A -> A -> Z).

Fixpoint stableInsert (x : A) (l : list A) : list A :=
  match l with
  | [] => [x]
  | y :: l' => if cmp x y <=? 0 then x :: l else y :: stableInsert x l'
  end.

Fixpoint stableSort (l : list A) : list A :=
  match l with
  | [] => []
  | x :: l' => stableInsert x (stableSort l')
  end.

(** [x] is placed before [y]: not after it for the comparator and, when the
    comparator ties them, of smaller rank (the rank is the position in the
    array before the sort). *)
Definition placedBefore (rank : A -> nat) (x y : A) : Prop :=
  cmp x y <= 0 /\ (cmp y x <= 0 -> (rank x < rank y)%nat).
End StableSort.

Definition displayCount (annotation : Annotation) : string :=
  if count annotation =? 1 then ""
  else "(" ++ pretty (count annotation) ++ "x) ".

Definition reviewCommentBody (annotation : Annotation) : string :=
  ":warning: **TiCS: " ++ type annotation ++ " violation: " ++ msg annotation
    ++ "** " ++ CRLF ++ displayCount annotation
    ++ "Line: " ++ pretty (line annotation) ++ ", Rule: " ++ rule annotation
    ++ ", Level: " ++ level annotation
    ++ ", Category: " ++ category annotation ++ " " ++ CRLF.

Definition hiePrefix (ticsConfig : TicsConfig) : string :=
  "HIE://" ++ projectName ticsConfig ++ "/" ++ branchName ticsConfig ++ "/".

Definition toReviewComment (ticsConfig : TicsConfig) (annotation : Annotation)
  : ReviewComment :=
  mkReviewComment (reviewCommentBody annotation)
                  (replaceFirst (hiePrefix ticsConfig) (fullPath annotation))
                  (line annotation).

(** The loop and the sort: the sorted references and the array after the
    loop. *)
Definition groupAnnotations (annotations : list Annotation) (changedFiles : list string)
  : list nat * list Annotation :=
  let '(annotations', groupedAnnotations) := groupLoop changedFiles annotations in
  (stableSort (compareRefs annotations') groupedAnnotations, annotations').

(** [createReviewComments] (lines 88-114) returns the review comments, the
    grouped objects formatted by the [map] of lines 106-113; the second
    component is the array [annotations] as the call leaves it, since the
    loop updates the [count] of its objects in place. *)
Definition createReviewComments (ticsConfig : TicsConfig)
    (annotations : list Annotation) (changedFiles : list string)
  : list ReviewComment * list Annotation :=
  let '(groupedAnnotations, annotations') := groupAnnotations annotations changedFiles in
  (map (toReviewComment ticsConfig) (deref annotations' groupedAnnotations), annotations').

(** ** The GitHub API, the log and asynchronous calls *)

(** The settings of [githubConfig] read here. *)
Record GithubConfig := mkGithubConfig {
  owner : string;
  reponame : string;
  pullRequestNumber : string
}.

(** A review comment as the API lists it. *)
Record PostedReviewComment := mkPostedReviewComment {
  id : Z;
  postedBody : string
}.

(** [review.data.commit_id] *)
Record Review := mkReview {
  commit_id : string
}.

(** The calls to [octokit] with their parameters. *)
Inductive Request :=
| ListReviewComments (owner repo pull_number : string)
| DeleteReviewComment (owner repo : string) (comment_id : Z)
| CreateReviewComment (owner repo pull_number commit_id body : string)
                      (line : Z) (path : string).

Inductive LogLevel := Header | Info | Debug | Error.

(** What a run does, in the order it happens: a line logged, a request
    issued, the reply to a request handed to the code that awaits it. *)
Inductive Event :=
| Logged (level : LogLevel) (text : string)
| Called (request : Request)
| Settled (request : Request) (fulfilled : bool).

(** The world a run acts on: the events so far and the array [annotations]
    of the caller. *)
Record World := mkWorld {
  trace : list Event;
  heap : list Annotation
}.

(** The completion of a piece of code: a value, or an exception with its
    [message]. *)
Inductive Completion (A : Type) :=
| Normal (value : A)
| Throw (errorMessage : string).
Arguments Normal {A} value.
Arguments Throw {A} errorMessage.

Definition Js (A : Type) : Type := World -> Completion A * World.

Definition ret {A : Type} (a : A) : Js A := fun w => (Normal a, w).

Definition bind {A B : Type} (c : Js A) (k : A -> Js B) : Js B :=
  fun w =>
    match c w with
    | (Normal a, w') => k a w'
    | (Throw m, w') => (Throw m, w')
    end.

Definition throw {A : Type} (m : string) : Js A := fun w => (Throw m, w).

(** [try { body } catch (error) { handler error.message }] *)
Definition tryCatch {A : Type} (body : Js A) (handler : string -> Js A) : Js A :=
  fun w =>
    match body w with
    | (Normal a, w') => (Normal a, w')
    | (Throw m, w') => handler m w'
    end.

Declare Scope js_scope.
Delimit Scope js_scope with js.
Notation "x <- c1 ;; c2" := (bind c1 (fun x => c2))
  (at level 100, c1 at next level, right associativity) : js_scope.
Notation "c1 ;; c2" := (bind c1 (fun _ => c2))
  (at level 100, right associativity) : js_scope.
Open Scope js_scope.

Definition emit (e : Event) : Js unit :=
  fun w => (Normal tt, mkWorld (trace w ++ [e])%list (heap w)).

Definition log (level : LogLevel) (text : string) : Js unit := emit (Logged level text).

Definition call (request : Request) : Js unit := emit (Called request).

Definition setHeap (annotations : list Annotation) : Js unit :=
  fun w => (Normal tt, mkWorld (trace w) annotations).

(** The reply to a request reaches the code that awaits it: the [await]
    yields, or throws the error of a rejected request. *)
Definition settle (request : Request) (reply : option string) : Js unit :=
  match reply with
  | None => emit (Settled request true)
  | Some m => emit (Settled request false) ;; throw m
  end.

(** [for] each element in order, collecting the results. *)
Fixpoint mapJs {A B : Type} (f : A -> Js B) (l : list A) : Js (list B) :=
  match l with
  | [] => ret []
  | x :: l' => y <- f x ;; ys <- mapJs f l' ;; ret (y :: ys)
  end.

(** What the API answers in a run.  [listReply] is the error message of a
    failed listing or all pages of a successful one; [deleteReply j] and
    [createReply i] answer the [j]-th delete and the [i]-th create request
    issued, [None] for success and [Some m] for a rejection with message [m];
    [arrival] is the order of the replies: its [n]-th element chooses, among
    the requests still without a reply, the one answered next. *)
Record Env := mkEnv {
  listReply : string + list PostedReviewComment;
  deleteReply : nat -> option string;
  createReply : nat -> option string;
  arrival : list nat
}.

(** An asynchronous callback suspended at its [await], waiting for the reply
    to the request it issued. *)
Inductive Pending :=
| PendingDelete (request : Request) (j : nat)
| PendingCreate (request : Request) (i : nat) (comment : ReviewComment).

Definition isCreate (p : Pending) : bool :=
  match p with
  | PendingCreate _ _ _ => true
  | PendingDelete _ _ => false
  end.

(** The marker of the comments this action posts. *)
Definition marker : string := ":warning: **TiCS:".

(** ** getPostedReviewComments *)

(** Lines 45-57.  [None] is the [undefined] returned after the [catch]. *)
Definition getPostedReviewComments (githubConfig : GithubConfig) (env : Env)
  : Js (option (list PostedReviewComment)) :=
  tryCatch
    (log Info "Retrieving posted review comments." ;;
     let params :=
       ListReviewComments (owner githubConfig) (reponame githubConfig)
                          (pullRequestNumber githubConfig) in
     call params ;;
     match listReply env with
     | inr comments => settle params None ;; ret (Some comments)
     | inl m => settle params (Some m) ;; ret None
     end)
    (fun m =>
       log Error ("Could not retrieve the review comments: " ++ m) ;;
       ret None).

(** ** deletePreviousReviewComments *)

(** The callback of [postedReviewComments.map] up to its [await]: for a
    comment that starts with the marker the delete request is issued and the
    callback is suspended. *)
Definition deleteCallback (githubConfig : GithubConfig)
    (reviewComment : PostedReviewComment) : Js (option Request) :=
  if (substring 0 17 (postedBody reviewComment) =? marker)%string then
    let params :=
      DeleteReviewComment (owner githubConfig) (reponame githubConfig)
                          (id reviewComment) in
    call params ;; ret (Some params)
  else ret None.

(** The rest of the callback, run when the reply arrives. *)
Definition deleteResume (env : Env) (request : Request) (j : nat) : Js unit :=
  tryCatch
    (settle request (deleteReply env j))
    (fun m => log Error ("Could not delete review comment: " ++ m)).

(** Lines 63-80.  The result is the requests issued, in order: nothing awaits
    their replies here, the function returns as soon as the callbacks are
    suspended. *)
Definition deletePreviousReviewComments (githubConfig : GithubConfig)
    (postedReviewComments : list PostedReviewComment) : Js (list Request) :=
  log Header "Deleting review comments of previous runs." ;;
  suspended <- mapJs (deleteCallback githubConfig) postedReviewComments ;;
  log Info "Deleted review comments of previous runs." ;;
  ret (omap (fun r => r) suspended).

(** ** postReviewComments *)

(** The callback of [comments.map] up to its [await]. *)
Definition createCallback (githubConfig : GithubConfig) (review : Review)
    (comment : ReviewComment) : Js Request :=
  let params :=
    CreateReviewComment (owner githubConfig) (reponame githubConfig)
                        (pullRequestNumber githubConfig) (commit_id review)
                        (body comment) (commentLine comment) (path comment) in
  call params ;; ret params.

(** The rest of that callback; [unpostedReviewComments] is the array the
    callbacks share. *)
Definition createResume (env : Env) (request : Request) (i : nat)
    (comment : ReviewComment) (unpostedReviewComments : list ReviewComment)
  : Js (list ReviewComment) :=
  tryCatch
    (settle request (createReply env i) ;; ret unpostedReviewComments)
    (fun m =>
       let unpostedReviewComments' := (unpostedReviewComments ++ [comment])%list in
       log Debug ("Could not post review comment: " ++ m) ;;
       ret unpostedReviewComments').

Definition resume (env : Env) (p : Pending) (unpostedReviewComments : list ReviewComment)
  : Js (list ReviewComment) :=
  match p with
  | PendingDelete request j =>
      deleteResume env request j ;; ret unpostedReviewComments
  | PendingCreate request i comment =>
      createResume env request i comment unpostedReviewComments
  end.

(** [await Promise.all(...)]: replies arrive one at a time, in the order the
    environment chooses, and each resumes its callback; the [await] returns
    once every create callback has finished.  Delete callbacks whose reply
    has not arrived by then stay suspended.  [fuel] bounds the number of
    replies by the number of suspended callbacks. *)
Fixpoint awaitAll (env : Env) (fuel : nat) (choices : list nat)
    (pending : list Pending) (unpostedReviewComments : list ReviewComment)
  : Js (list ReviewComment) :=
  if negb (existsb isCreate pending) then ret unpostedReviewComments
  else
    match fuel with
    | O => ret unpostedReviewComments
    | S fuel' =>
        let k := (hd O choices mod length pending)%nat in
        match pending !! k with
        | None => ret unpostedReviewComments
        | Some p =>
            unpostedReviewComments' <- resume env p unpostedReviewComments ;;
            awaitAll env fuel' (tl choices) (delete k pending) unpostedReviewComments'
        end
    end.

Fixpoint pendingDeletes (j : nat) (requests : list Request) : list Pending :=
  match requests with
  | [] => []
  | request :: requests' => PendingDelete request j :: pendingDeletes (S j) requests'
  end.

Fixpoint pendingCreates (i : nat) (requests : list Request) (comments : list ReviewComment)
  : list Pending :=
  match requests, comments with
  | request :: requests', comment :: comments' =>
      PendingCreate request i comment :: pendingCreates (S i) requests' comments'
  | _, _ => []
  end.

(** Lines 11-39.  The function returns the comments that could not be
    posted.  The delete requests are issued before the grouping and the
    create requests, and nothing awaits them: between their issue and the
    issue of the create requests the code only awaits
    [createReviewComments], which makes no request, so no reply is handled
    in between. *)
Definition postReviewComments (githubConfig : GithubConfig) (ticsConfig : TicsConfig)
    (env : Env) (review : Review) (annotations : list Annotation)
    (changedFiles : list string) : Js (list ReviewComment) :=
  postedReviewComments <- getPostedReviewComments githubConfig env ;;
  deletes <- match postedReviewComments with
             | Some posted => deletePreviousReviewComments githubConfig posted
             | None => ret []
             end ;;
  let '(comments, annotations') :=
    createReviewComments ticsConfig annotations changedFiles in
  setHeap annotations' ;;
  let unpostedReviewComments : list ReviewComment := [] in
  log Header "Posting review comments." ;;
  creates <- mapJs (createCallback githubConfig review) comments ;;
  let pending := (pendingDeletes 0 deletes ++ pendingCreates 0 creates comments)%list in
  unpostedReviewComments' <-
    awaitAll env (length pending) (arrival env) pending unpostedReviewComments ;;
  log Info "Posted review comments." ;;
  ret unpostedReviewComments'.

(** A run from an empty log. *)
Definition run {A : Type} (c : Js A) (annotations : list Annotation)
  : Completion A * World :=
  c (mkWorld [] annotations).

(** ** Vocabulary of the properties *)

(** Agreement on the six properties of the duplicate key. *)
Definition sameKey (a b : Annotation) : Prop :=
  fullPath a = fullPath b /\ type a = type b /\ line a = line b /\
  rule a = rule b /\ level a = level b /\ category a = category b.

(** Every reference refers to an object of the array. *)
Definition validRefs (annotations : list Annotation) (refs : list nat) : Prop :=
  Forall (fun r => is_Some (annotations !! r)) refs.

(** An object of the array keeps every property but [count]. *)
Definition countChanged (a a' : Annotation) : Prop := exists n, a' = setCount a n.

(** What holds after the callback has run on the positions below [i]: the
    objects of the array differ from the input in [count] only, and the
    references pushed so far are increasing positions below [i] of
    annotations that passed the scope test. *)
Record groupInv (cf : list string) (anns : list Annotation) (i : nat)
    (st : list Annotation * list nat) : Prop := mkGroupInv {
  inv_store : Forall2 countChanged anns (fst st);
  inv_sorted : StronglySorted lt (snd st);
  inv_refs : Forall (fun r => (r < i)%nat /\
                exists a, anns !! r = Some a /\ inChangedFiles cf a = true) (snd st)
}.

(** [s1 < s2] on strings. *)
Definition strLt (s1 s2 : string) : Prop := String.ltb s1 s2 = true.

(** No annotation that passes the scope test matches an earlier one that
    passes it. *)
Definition noDuplicateInScope (cf : list string) (anns : list Annotation) : Prop :=
  forall i j a b,
    (i < j)%nat -> anns !! i = Some a -> anns !! j = Some b ->
    inChangedFiles cf a = true -> inChangedFiles cf b = true ->
    sameAnnotation b a = false.

(** ** Observations on a run *)

Definition extend (w : World) (events : list Event) : World :=
  mkWorld (trace w ++ events)%list (heap w).

(** The comment ids of the delete requests issued, in order. *)
Definition deleteCalls (t : list Event) : list Z :=
  flat_map (fun e => match e with
                     | Called (DeleteReviewComment _ _ comment_id) => [comment_id]
                     | _ => []
                     end) t.

(** The comments of the create requests issued, in order. *)
Definition createCalls (t : list Event) : list ReviewComment :=
  flat_map (fun e => match e with
                     | Called (CreateReviewComment _ _ _ _ b l p) => [mkReviewComment b p l]
                     | _ => []
                     end) t.

Definition isDeleteReply (e : Event) : bool :=
  match e with
  | Settled (DeleteReviewComment _ _ _) _ => true
  | _ => false
  end.

Definition isCall (e : Event) : bool :=
  match e with
  | Called _ => true
  | _ => false
  end.

(** A posted comment is owned by the action: its body starts with the marker. *)
Definition startsWithMarker (c : PostedReviewComment) : bool :=
  String.prefix marker (postedBody c).

Definition deleteRequest (githubConfig : GithubConfig) (c : PostedReviewComment) : Request :=
  DeleteReviewComment (owner githubConfig) (reponame githubConfig) (id c).

Definition createRequest (githubConfig : GithubConfig) (review : Review)
    (comment : ReviewComment) : Request :=
  CreateReviewComment (owner githubConfig) (reponame githubConfig)
                      (pullRequestNumber githubConfig) (commit_id review)
                      (body comment) (commentLine comment) (path comment).

(** The candidates whose create request the environment rejects, [i] being
    the position of the first of [comments]. *)
Fixpoint rejectedComments (env : Env) (i : nat) (comments : list ReviewComment)
  : list ReviewComment :=
  match comments with
  | [] => []
  | comment :: comments' =>
      match createReply env i with
      | Some _ => comment :: rejectedComments env (S i) comments'
      | None => rejectedComments env (S i) comments'
      end
  end.

(** What resuming a suspended callback adds to the unposted comments and to
    the trace. *)
Definition contribution (env : Env) (p : Pending) : list ReviewComment :=
  match p with
  | PendingCreate _ i comment =>
      match createReply env i with Some _ => [comment] | None => [] end
  | PendingDelete _ _ => []
  end.

Definition resumeEvents (env : Env) (p : Pending) : list Event :=
  match p with
  | PendingDelete request j =>
      match deleteReply env j with
      | None => [Settled request true]
      | Some m => [Settled request false;
                   Logged Error ("Could not delete review comment: " ++ m)]
      end
  | PendingCreate request i _ =>
      match createReply env i with
      | None => [Settled request true]
      | Some m => [Settled request false;
                   Logged Debug ("Could not post review comment: " ++ m)]
      end
  end.

(** The events up to the first create request. *)
Definition listEvents (githubConfig : GithubConfig) (env : Env) : list Event :=
  let params := ListReviewComments (owner githubConfig) (reponame githubConfig)
                                   (pullRequestNumber githubConfig) in
  match listReply env with
  | inr _ => [Logged Info "Retrieving posted review comments."; Called params;
              Settled params true]
  | inl m => [Logged Info "Retrieving posted review comments."; Called params;
              Settled params false;
              Logged Error ("Could not retrieve the review comments: " ++ m)]
  end.

Definition deletesIssued (githubConfig : GithubConfig) (env : Env) : list Request :=
  match listReply env with
  | inr posted => map (deleteRequest githubConfig) (List.filter startsWithMarker posted)
  | inl _ => []
  end.

Definition purgeEvents (githubConfig : GithubConfig) (env : Env) : list Event :=
  match listReply env with
  | inr _ =>
      [Logged Header "Deleting review comments of previous runs."]
        ++ map Called (deletesIssued githubConfig env)
        ++ [Logged Info "Deleted review comments of previous runs."]
  | inl _ => []
  end%list.

(** ** Further vocabulary *)

(** Two objects agree on every property but [count]. *)
Definition sameButCount (a a' : Annotation) : Prop := setCount a 0 = setCount a' 0.

(** The sum of the counts of a list of annotations. *)
Definition sumCounts (l : list Annotation) : Z :=
  fold_right (fun b acc => count b + acc) 0 l.

(** What holds of the grouped references after the callback has run on the
    positions below [i]: every annotation in scope below [i] matches a
    grouped object at a position not after its own; no grouped object
    matches an earlier grouped one; the objects at positions from the number
    of grouped references on are as in the input. *)
Record dedupInv (cf : list string) (anns : list Annotation) (i : nat)
    (st : list Annotation * list nat) : Prop := mkDedupInv {
  dedup_cover :
    forall j a, (j < i)%nat -> anns !! j = Some a -> inChangedFiles cf a = true ->
      exists r b, In r (snd st) /\ (r <= j)%nat /\ fst st !! r = Some b /\
                  sameAnnotation a b = true;
  dedup_distinct :
    forall p q rp rq bp bq,
      (p < q)%nat -> snd st !! p = Some rp -> snd st !! q = Some rq ->
      fst st !! rp = Some bp -> fst st !! rq = Some bq ->
      sameAnnotation bq bp = false;
  dedup_bound :
    forall j, (length (snd st) <= j)%nat -> fst st !! j = anns !! j
}.

(** The requests issued, in order. *)
Definition calls (t : list Event) : list Request :=
  flat_map (fun e => match e with Called request => [request] | _ => [] end) t.

(** The callbacks [awaitAll] resumes, in the order it resumes them: the
    choices of the environment among the suspended callbacks, up to the last
    create callback. *)
Fixpoint arrivalOrder (fuel : nat) (choices : list nat) (pending : list Pending)
  : list Pending :=
  if negb (existsb isCreate pending) then []
  else
    match fuel with
    | O => []
    | S fuel' =>
        let k := (hd O choices mod length pending)%nat in
        match pending !! k with
        | None => []
        | Some p => p :: arrivalOrder fuel' (tl choices) (delete k pending)
        end
    end.

(** The callbacks suspended when [postReviewComments] reaches its [await],
    and those resumed before it returns. *)
Definition suspended (githubConfig : GithubConfig) (ticsConfig : TicsConfig) (env : Env)
    (review : Review) (annotations : list Annotation) (changedFiles : list string)
  : list Pending :=
  (pendingDeletes 0 (deletesIssued githubConfig env)
   ++ pendingCreates 0
        (map (createRequest githubConfig review)
             (fst (createReviewComments ticsConfig annotations changedFiles)))
        (fst (createReviewComments ticsConfig annotations changedFiles)))%list.

Definition resumed (githubConfig : GithubConfig) (ticsConfig : TicsConfig) (env : Env)
    (review : Review) (annotations : list Annotation) (changedFiles : list string)
  : list Pending :=
  let pending := suspended githubConfig ticsConfig env review annotations changedFiles in
  arrivalOrder (length pending) (arrival env) pending.

(** ** configuration.ts *)

(** The settings the module reads from [process.env] and from the inputs of
    the action.  [process.env] is a map from names to strings, a name that
    is not set reading as [undefined]; [getInput], of [@actions/core], is
    taken as a function from the name of an input to its value, the empty
    string when the input is not given.  The definitions are in a module of
    their own: the object [githubConfig] has more properties than the three
    [annotations.ts] reads. *)
Module Configuration.

(** [String.prototype.split] with a separator of one code unit. *)
Fixpoint split (sep : ascii) (s : string) : list string :=
  match s with
  | EmptyString => [EmptyString]
  | String ch s' =>
      if Ascii.eqb ch sep then EmptyString :: split sep s'
      else match split sep s' with
           | part :: parts => String ch part :: parts
           | [] => [String ch EmptyString]
           end
  end.

(** [join] with a separator of one code unit. *)
Fixpoint join (sep : ascii) (parts : list string) : string :=
  match parts with
  | [] => EmptyString
  | [part] => part
  | part :: parts' => part ++ String sep (join sep parts')
  end.

(** [process.env.NAME ? process.env.NAME : ''] *)
Definition envOrEmpty (env : gmap string string) (name : string) : string :=
  match env !! name with
  | Some v => if truthy (Some v) then v else ""
  | None => ""
  end.

(** The object [githubConfig] (lines 10-20); [reponame] is [undefined] when
    [split] yields one part only. *)
Record Github := mkGithub {
  repo : string;
  owner : string;
  reponame : option string;
  branchname : string;
  basebranchname : string;
  branchdir : string;
  eventName : string;
  runnerOS : string;
  pullRequestNumber : string
}.

(** [payloadPullRequestNumber] is [payload.pull_request.number] of the event
    file (lines 7-8), the empty string when there is none. *)
Definition githubConfig (env : gmap string string) (payloadPullRequestNumber : string)
  : Github :=
  mkGithub
    (envOrEmpty env "GITHUB_REPOSITORY")
    (if truthy (env !! "GITHUB_REPOSITORY")
     then hd "" (split "/" (envOrEmpty env "GITHUB_REPOSITORY")) else "")
    (if truthy (env !! "GITHUB_REPOSITORY")
     then split "/" (envOrEmpty env "GITHUB_REPOSITORY") !! 1%nat else Some "")
    (envOrEmpty env "GITHUB_HEAD_REF")
    (envOrEmpty env "GITHUB_BASE_REF")
    (envOrEmpty env "GITHUB_WORKSPACE")
    (envOrEmpty env "GITHUB_EVENT_NAME")
    (envOrEmpty env "RUNNER_OS")
    (if truthy (env !! "PULL_REQUEST_NUMBER")
     then envOrEmpty env "PULL_REQUEST_NUMBER" else payloadPullRequestNumber).

(** What a function of the module leaves behind: its result, [process.env]
    and the lines it wrote with [info]. *)
Record Outcome (A : Type) := mkOutcome {
  result : A;
  processEnv : gmap string string;
  infoLines : list string
}.
Arguments mkOutcome {A} result processEnv infoLines.
Arguments result {A} o.
Arguments processEnv {A} o.
Arguments infoLines {A} o.

(** Lines 22-42. *)
Definition getHostnameVerification (getInput : string -> string)
    (env : gmap string string) : Outcome bool :=
  let hostnameVerificationCfg := getInput "hostnameVerification" in
  let env1 :=
    if truthy (Some hostnameVerificationCfg)
    then <["TICSHOSTNAMEVERIFICATION" := hostnameVerificationCfg]> env
    else env in
  match env1 !! "TICSHOSTNAMEVERIFICATION" with
  | Some v =>
      if (v =? "0")%string || (v =? "false")%string
      then mkOutcome false (<["NODE_TLS_REJECT_UNAUTHORIZED" := "0"]> env1)
                     ["Hostname Verification disabled"]
      else mkOutcome true env1 []
  | None => mkOutcome true env1 []
  end.

(** Lines 44-53. *)
Definition getTicsAuthToken (getInput : string -> string) (env : gmap string string)
  : Outcome string :=
  let ticsAuthToken := getInput "ticsAuthToken" in
  if truthy (Some ticsAuthToken)
  then mkOutcome ticsAuthToken (<["TICSAUTHTOKEN" := ticsAuthToken]> env) []
  else mkOutcome ticsAuthToken env [].

(** [s.replace(/\/+$/, '')]: the match is the run of slashes that ends the
    string, and it is removed. *)
Fixpoint stripTrailingSlashes (s : string) : string :=
  match s with
  | EmptyString => EmptyString
  | String ch s' =>
      let rest := stripTrailingSlashes s' in
      if Ascii.eqb ch "/" && (rest =? "")%string then EmptyString
      else String ch rest
  end.

(** Line 76: [viewerUrl], from the input of that name and [baseUrl]. *)
Definition viewerUrl (ticsViewerUrl baseUrl : string) : string :=
  if truthy (Some ticsViewerUrl) then stripTrailingSlashes ticsViewerUrl else baseUrl.

(** Line 74: the option [ignoreSslError] of the HTTP client. *)
Definition ignoreSslError (hostnameVerification : bool) : bool :=
  negb hostnameVerification.

(** [n] slashes. *)
Fixpoint slashes (n : nat) : string :=
  match n with
  | O => EmptyString
  | S n' => String "/" (slashes n')
  end.

End Configuration.

(** ** Sample data *)

Definition exampleConfig : TicsConfig := mkTicsConfig "proj" "main".

Definition exampleGithub : GithubConfig := mkGithubConfig "asml" "repo" "12".

(** An annotation of the data model: no [message] property. *)
Definition exampleAnnotation (p : string) (l : Z) (m : string) (n : Z) : Annotation :=
  mkAnnotation p "T" l "R1" "L" "C" m None n.

(** An annotation that carries a [message] property. *)
Definition withMessage (p : string) (m : string) : Annotation :=
  mkAnnotation p "T" 5 "R1" "L" "C" "x" (Some m) 1.

(** A run with one comment of an earlier run to purge and one annotation to
    post, every request accepted. *)
Definition exampleEnv : Env :=
  mkEnv (inr [mkPostedReviewComment 7 ":warning: **TiCS: T violation: old** ";
              mkPostedReviewComment 8 "a comment of a reviewer"])
        (fun _ => None) (fun _ => None) [].

(** A run in which the listing fails and the second create request is
    rejected; the replies arrive last request first. *)
Definition failingEnv : Env :=
  mkEnv (inl "Bad credentials")
        (fun _ => None)
        (fun i => if (i =? 1)%nat then Some "line is not part of the diff" else None)
        [1%nat; 0%nat].

Definition exampleReview : Review := mkReview "4f2a9c".

(** Unfolds the primitives of [Js] and brings the traces to one shape. *)
Ltac js_norm :=
  unfold tryCatch, settle, bind, log, call, throw, ret, emit, extend; simpl;
  rewrite <- ?app_assoc; simpl.

(** * Properties *)

(** ** Strings *)

Lemma append_cons (ch : ascii) (a s : string) : String ch a ++ s = String ch (a ++ s).
Proof. reflexivity. Qed.

Lemma append_nil (s : string) : "" ++ s = s.
Proof. reflexivity. Qed.

Lemma prefix_append (p s : string) : String.prefix p (p ++ s) = true.
Proof.
  induction p as [|ch p IH].
  - rewrite append_nil. destruct s; reflexivity.
  - rewrite append_cons. simpl. destruct (ascii_dec ch ch); [exact IH | congruence].
Qed.

Lemma prefix_split (p s : string) :
  String.prefix p s = true -> exists r, s = p ++ r.
Proof.
  revert s. induction p as [|ch p IH]; intros s H.
  - exists s. reflexivity.
  - destruct s as [|ch' s]; simpl in H; [discriminate|].
    destruct (ascii_dec ch ch') as [->|]; [|discriminate].
    destruct (IH s H) as [r ->]. exists r. reflexivity.
Qed.

Lemma includes_nil (c : string) : includes "" c = String.prefix c "".
Proof. unfold includes. apply orb_false_r. Qed.

Lemma includes_cons (ch : ascii) (s c : string) :
  includes (String ch s) c = String.prefix c (String ch s) || includes s c.
Proof. reflexivity. Qed.

(** [includes] is containment as a contiguous substring. *)
Lemma includes_spec (s c : string) :
  includes s c = true <-> exists p q, s = p ++ c ++ q.
Proof.
  split.
  - induction s as [|ch s IH]; intros H.
    + rewrite includes_nil in H. destruct (prefix_split _ _ H) as [r Hr].
      exists "", r. exact Hr.
    + rewrite includes_cons in H. apply orb_true_iff in H. destruct H as [H|H].
      * destruct (prefix_split _ _ H) as [r Hr]. exists "", r. exact Hr.
      * destruct (IH H) as (p & q & ->). exists (String ch p), q. reflexivity.
  - intros (p & q & ->). induction p as [|ch p IH].
    + rewrite append_nil.
      assert (E : String.prefix c (c ++ q) = true) by apply prefix_append.
      destruct (c ++ q).
      * rewrite includes_nil. exact E.
      * rewrite includes_cons, E. reflexivity.
    + rewrite append_cons, includes_cons, IH. apply orb_true_r.
Qed.

Lemma includes_empty (s : string) : includes s "" = true.
Proof. apply includes_spec. exists "", s. reflexivity. Qed.

Lemma dropString_append (p s : string) : dropString (String.length p) (p ++ s) = s.
Proof.
  induction p as [|ch p IH]; [reflexivity|].
  rewrite append_cons. simpl. exact IH.
Qed.

Lemma replaceFirst_unfold (p s : string) :
  String.prefix p s = true -> replaceFirst p s = dropString (String.length p) s.
Proof.
  intros H. destruct s as [|ch s].
  - change (replaceFirst p "")
      with (if String.prefix p "" then dropString (String.length p) "" else "").
    rewrite H. reflexivity.
  - change (replaceFirst p (String ch s))
      with (if String.prefix p (String ch s)
            then dropString (String.length p) (String ch s)
            else String ch (replaceFirst p s)).
    rewrite H. reflexivity.
Qed.

Lemma replaceFirst_prefix (p s : string) : replaceFirst p (p ++ s) = s.
Proof.
  rewrite replaceFirst_unfold by apply prefix_append. apply dropString_append.
Qed.

Lemma strictEq_spec (a b : option string) : strictEq a b = true <-> a = b.
Proof.
  destruct a as [x|], b as [y|]; simpl; try (split; congruence).
  rewrite String.eqb_eq. split; congruence.
Qed.

(** The marker has 17 code units, so the test of line 66 is a prefix test. *)
Lemma marker_test (s : string) :
  (substring 0 17 s =? marker)%string = String.prefix marker s.
Proof.
  destruct (String.prefix marker s) eqn:E.
  - apply String.eqb_eq. apply prefix_correct in E. exact E.
  - apply String.eqb_neq. intros H.
    assert (String.prefix marker s = true) by (apply prefix_correct; exact H).
    congruence.
Qed.

(** ** The key of findAnnotationInList *)

Lemma sameAnnotation_spec (annotation a : Annotation) :
  sameAnnotation annotation a = true <->
  sameKey a annotation /\ message a = message annotation.
Proof.
  unfold sameAnnotation, sameKey.
  rewrite !andb_true_iff, !String.eqb_eq, Z.eqb_eq, strictEq_spec. tauto.
Qed.

Lemma sameAnnotation_setCount_l (annotation a : Annotation) (n : Z) :
  sameAnnotation (setCount annotation n) a = sameAnnotation annotation a.
Proof. reflexivity. Qed.

Lemma sameAnnotation_setCount_r (annotation a : Annotation) (n : Z) :
  sameAnnotation annotation (setCount a n) = sameAnnotation annotation a.
Proof. reflexivity. Qed.

(** ** The scope test *)

Lemma inChangedFiles_includes (changedFiles : list string) (a : Annotation) :
  inChangedFiles changedFiles a = true ->
  exists c, In c changedFiles /\ includes (fullPath a) c = true.
Proof.
  unfold inChangedFiles. destruct (find _ changedFiles) as [c|] eqn:E; [|discriminate].
  intros _. apply find_some in E. exists c. exact E.
Qed.

Lemma inChangedFiles_nonempty (changedFiles : list string) (a : Annotation) :
  ~ In "" changedFiles ->
  inChangedFiles changedFiles a = true <->
  exists c, In c changedFiles /\ includes (fullPath a) c = true.
Proof.
  intros Hne. split; [apply inChangedFiles_includes|].
  intros (c & Hin & Hc). unfold inChangedFiles.
  destruct (find _ changedFiles) as [c'|] eqn:E.
  - apply find_some in E. destruct E as [Hin' _]. simpl.
    destruct (String.eqb_spec c' ""); [subst; contradiction | reflexivity].
  - eapply find_none in E; [|exact Hin]. simpl in E. congruence.
Qed.

Lemma inChangedFiles_setCount (changedFiles : list string) (a : Annotation) (n : Z) :
  inChangedFiles changedFiles (setCount a n) = inChangedFiles changedFiles a.
Proof. reflexivity. Qed.

(** ** The loop of createReviewComments *)

Lemma fold_left_seq_inv {St : Type} (step : St -> nat -> St) (P : nat -> St -> Prop)
    (n : nat) (init : St) :
  P O init ->
  (forall i s, (i < n)%nat -> P i s -> P (S i) (step s i)) ->
  P n (fold_left step (seq 0 n) init).
Proof.
  induction n as [|n IH]; intros H0 Hstep; [exact H0|].
  rewrite seq_S, fold_left_app. simpl. apply Hstep; [lia|].
  apply IH; [exact H0|]. intros i s Hi. apply Hstep. lia.
Qed.

Lemma findIndex_None {A : Type} (p : A -> bool) (l : list A) :
  findIndex p l = None <-> Forall (fun x => p x = false) l.
Proof.
  induction l as [|x l IH]; simpl.
  - split; [constructor | reflexivity].
  - destruct (p x) eqn:E.
    + split; [discriminate|]. intros H. inversion H; congruence.
    + destruct (findIndex p l); simpl.
      * split; [discriminate|]. intros H. inversion H; subst.
        apply IH in H3. discriminate.
      * split; [|reflexivity]. intros _. constructor; [exact E | now apply IH].
Qed.

Lemma findIndex_Some {A : Type} (p : A -> bool) (l : list A) (i : nat) :
  findIndex p l = Some i ->
  exists x, l !! i = Some x /\ p x = true.
Proof.
  revert i. induction l as [|x l IH]; simpl; intros i H; [discriminate|].
  destruct (p x) eqn:E.
  - inversion H; subst. exists x. split; [reflexivity | exact E].
  - destruct (findIndex p l) as [j|]; simpl in H; [|discriminate].
    inversion H; subst. destruct (IH j eq_refl) as (y & Hy & Hp).
    exists y. split; assumption.
Qed.

Lemma deref_cons (annotations : list Annotation) (r : nat) (refs : list nat) (a : Annotation) :
  annotations !! r = Some a ->
  deref annotations (r :: refs) = a :: deref annotations refs.
Proof. intros H. unfold deref. simpl. rewrite H. reflexivity. Qed.

Lemma deref_lookup (annotations : list Annotation) (refs : list nat) :
  validRefs annotations refs ->
  forall p r, refs !! p = Some r -> deref annotations refs !! p = annotations !! r.
Proof.
  induction 1 as [|r0 refs [a Ha] _ IH]; intros p r Hp; [discriminate|].
  rewrite (deref_cons _ _ _ _ Ha). destruct p as [|p]; simpl in *.
  - inversion Hp; subst. symmetry. exact Ha.
  - apply IH. exact Hp.
Qed.

Lemma deref_length (annotations : list Annotation) (refs : list nat) :
  validRefs annotations refs -> length (deref annotations refs) = length refs.
Proof.
  induction 1 as [|r0 refs [a Ha] _ IH]; [reflexivity|].
  rewrite (deref_cons _ _ _ _ Ha). simpl. now rewrite IH.
Qed.

Lemma deref_elem (annotations : list Annotation) (refs : list nat) (b : Annotation) :
  In b (deref annotations refs) -> exists r, In r refs /\ annotations !! r = Some b.
Proof.
  induction refs as [|r refs IH]; simpl; [contradiction|].
  unfold deref. simpl. fold (deref annotations refs).
  destruct (annotations !! r) as [a|] eqn:E.
  - intros [->|H]; [exists r; auto|].
    destruct (IH H) as (r' & ? & ?). exists r'. auto.
  - intros H. destruct (IH H) as (r' & ? & ?). exists r'. auto.
Qed.

Lemma countChanged_refl (a : Annotation) : countChanged a a.
Proof. exists (count a). destruct a; reflexivity. Qed.

Lemma countChanged_addCount (a a' : Annotation) (n : Z) :
  countChanged a a' -> countChanged a (addCount n a').
Proof. intros [m ->]. exists (m + n). reflexivity. Qed.

Lemma countChanged_scope (cf : list string) (a a' : Annotation) :
  countChanged a a' -> inChangedFiles cf a' = inChangedFiles cf a.
Proof. intros [m ->]. reflexivity. Qed.

Lemma countChanged_fullPath (a a' : Annotation) :
  countChanged a a' -> fullPath a' = fullPath a.
Proof. intros [m ->]. reflexivity. Qed.

Lemma countChanged_line (a a' : Annotation) :
  countChanged a a' -> line a' = line a.
Proof. intros [m ->]. reflexivity. Qed.

Lemma StronglySorted_snoc (l : list nat) (i : nat) :
  StronglySorted lt l -> Forall (fun r => (r < i)%nat) l -> StronglySorted lt (l ++ [i]).
Proof.
  induction 1 as [|x l Hs IH Hx]; intros Hl; simpl.
  - repeat constructor.
  - inversion Hl; subst. constructor; [now apply IH|].
    apply Forall_app. split; [exact Hx | repeat constructor; assumption].
Qed.

Lemma groupStep_inv (cf : list string) (anns : list Annotation) (i : nat)
    (st : list Annotation * list nat) :
  (i < length anns)%nat -> groupInv cf anns i st -> groupInv cf anns (S i) (groupStep cf st i).
Proof.
  intros Hi [Hstore Hsorted Hrefs]. destruct st as [store refs]. simpl in *.
  assert (Hweak : Forall (fun r => (r < S i)%nat /\
            exists a, anns !! r = Some a /\ inChangedFiles cf a = true) refs).
  { eapply Forall_impl; [exact Hrefs|]. intros r [? ?]. split; [lia | assumption]. }
  destruct (lookup_lt_is_Some_2 anns i Hi) as [a Ha].
  destruct (Forall2_lookup_l _ _ _ _ _ Hstore Ha) as (a' & Ha' & Hcc).
  unfold groupStep. rewrite Ha'.
  rewrite (countChanged_scope cf _ _ Hcc).
  destruct (inChangedFiles cf a) eqn:Hscope; simpl.
  - destruct (findAnnotationInList (deref store refs) a') as [index|].
    + constructor; simpl; [|assumption|assumption].
      apply Forall2_alter_r; [exact Hstore|].
      intros x y _ _ Hxy. apply countChanged_addCount. exact Hxy.
    + constructor; simpl; [assumption| |].
      * apply StronglySorted_snoc; [assumption|].
        eapply Forall_impl; [exact Hrefs|]. intros r [? _]. assumption.
      * apply Forall_app. split; [assumption|]. repeat constructor.
        exists a. split; assumption.
  - constructor; assumption.
Qed.

Lemma groupLoop_inv (cf : list string) (anns : list Annotation) :
  groupInv cf anns (length anns) (groupLoop cf anns).
Proof.
  unfold groupLoop. apply fold_left_seq_inv.
  - constructor; simpl; [|constructor|constructor].
    induction anns; constructor; [apply countChanged_refl | assumption].
  - intros i s Hi. apply groupStep_inv. exact Hi.
Qed.

(** ** The order of the sort *)

Lemma strLt_compare (s1 s2 : string) : strLt s1 s2 <-> String.compare s1 s2 = Lt.
Proof.
  unfold strLt, String.ltb. destruct (String.compare s1 s2); split; congruence.
Qed.

Lemma strLt_irrefl (s : string) : ~ strLt s s.
Proof.
  rewrite strLt_compare. intros H.
  assert (E : String.compare s s = Eq) by (apply String_as_OT.cmp_eq; reflexivity).
  congruence.
Qed.

Lemma strLt_trans (s1 s2 s3 : string) : strLt s1 s2 -> strLt s2 s3 -> strLt s1 s3.
Proof.
  rewrite !strLt_compare. intros H1 H2.
  apply String_as_OT.cmp_lt. eapply String_as_OT.lt_trans; apply String_as_OT.cmp_lt;
    eassumption.
Qed.

Lemma strLt_trichotomy (s1 s2 : string) : strLt s1 s2 \/ s1 = s2 \/ strLt s2 s1.
Proof.
  rewrite !strLt_compare. destruct (String.compare s1 s2) eqn:E.
  - right. left. apply String_as_OT.cmp_eq. exact E.
  - left. reflexivity.
  - right. right. rewrite String.compare_antisym, E. reflexivity.
Qed.

Lemma strLt_asym (s1 s2 : string) : strLt s1 s2 -> ~ strLt s2 s1.
Proof. intros H1 H2. exact (strLt_irrefl _ (strLt_trans _ _ _ H1 H2)). Qed.

(** Stripping a common prefix keeps the order. *)
Lemma strLt_append (p s1 s2 : string) : strLt (p ++ s1) (p ++ s2) <-> strLt s1 s2.
Proof.
  rewrite !strLt_compare. induction p as [|ch p IH]; [reflexivity|].
  rewrite !append_cons. simpl.
  assert (E : Ascii.compare ch ch = Eq) by (apply Ascii_as_OT.cmp_eq; reflexivity).
  rewrite E. exact IH.
Qed.

(** The comparator says "not after" exactly for the lexicographic order on
    [fullPath] first and [line] second. *)
Lemma compareAnnotations_le (a b : Annotation) :
  compareAnnotations a b <= 0 <->
  strLt (fullPath a) (fullPath b) \/ (fullPath a = fullPath b /\ line a <= line b).
Proof.
  unfold compareAnnotations.
  destruct (String.eqb_spec (fullPath a) (fullPath b)) as [E|E].
  - rewrite E. split.
    + intros H. right. split; [reflexivity | lia].
    + intros [H|[_ H]]; [elim (strLt_irrefl _ H) | lia].
  - destruct (String.ltb (fullPath b) (fullPath a)) eqn:L.
    + split; [lia|]. intros [H|[H _]]; [|contradiction].
      elim (strLt_asym _ _ H). exact L.
    + split; [|lia]. intros _. left.
      destruct (strLt_trichotomy (fullPath a) (fullPath b)) as [H|[H|H]];
        [exact H | contradiction | unfold strLt in H; congruence].
Qed.

Lemma compareAnnotations_total (a b : Annotation) :
  compareAnnotations a b <= 0 \/ compareAnnotations b a <= 0.
Proof.
  rewrite !compareAnnotations_le.
  destruct (strLt_trichotomy (fullPath a) (fullPath b)) as [H|[H|H]]; auto.
  destruct (Z.le_ge_cases (line a) (line b)); [left | right]; right; split;
    auto; lia.
Qed.

Lemma compareAnnotations_trans (a b c : Annotation) :
  compareAnnotations a b <= 0 -> compareAnnotations b c <= 0 ->
  compareAnnotations a c <= 0.
Proof.
  rewrite !compareAnnotations_le.
  intros [H1|[E1 L1]] [H2|[E2 L2]].
  - left. eapply strLt_trans; eassumption.
  - left. rewrite <- E2. exact H1.
  - left. rewrite E1. exact H2.
  - right. split; [congruence | lia].
Qed.

Section StableSortFacts.
Context {A : Type} (cmp : A -> A -> Z) (rank : A -> nat) (ok : A -> Prop).
Hypothesis cmp_total : forall x y, ok x -> ok y -> cmp x y <= 0 \/ cmp y x <= 0.
Hypothesis cmp_trans :
  forall x y z, ok x -> ok y -> ok z -> cmp x y <= 0 -> cmp y z <= 0 -> cmp x z <= 0.

Lemma stableInsert_perm (x : A) (l : list A) :
  Permutation (stableInsert cmp x l) (x :: l).
Proof.
  induction l as [|y l IH]; simpl; [reflexivity|].
  destruct (cmp x y <=? 0); [reflexivity|].
  rewrite IH. apply perm_swap.
Qed.

Lemma stableSort_perm (l : list A) : Permutation (stableSort cmp l) l.
Proof.
  induction l as [|x l IH]; simpl; [reflexivity|].
  rewrite stableInsert_perm. now constructor.
Qed.

Lemma stableInsert_Forall (P : A -> Prop) (x : A) (l : list A) :
  P x -> Forall P l -> Forall P (stableInsert cmp x l).
Proof.
  intros Hx Hl. eapply Permutation_Forall; [symmetry; apply stableInsert_perm|].
  constructor; assumption.
Qed.

Lemma stableInsert_sorted (x : A) (l : list A) :
  ok x -> Forall ok l ->
  Forall (fun y => (rank x < rank y)%nat) l ->
  StronglySorted (placedBefore cmp rank) l ->
  StronglySorted (placedBefore cmp rank) (stableInsert cmp x l).
Proof.
  intros Hx Hok Hrank Hs. induction Hs as [|y l Hs IH Hy]; simpl.
  - repeat constructor.
  - inversion Hok as [|? ? Hoky Hokl]; subst.
    inversion Hrank as [|? ? Hry Hrl]; subst.
    destruct (Z.leb_spec (cmp x y) 0) as [Hle|Hgt].
    + constructor; [constructor; assumption|].
      constructor; [split; [exact Hle | intros _; exact Hry]|].
      rewrite Forall_forall in Hy, Hokl, Hrl. apply Forall_forall. intros z Hz.
      split; [|intros _; apply Hrl; exact Hz].
      apply (cmp_trans x y z); auto. apply (Hy z Hz).
    + constructor; [apply IH; assumption|].
      apply stableInsert_Forall; [|exact Hy].
      split; [|lia]. destruct (cmp_total x y Hx Hoky); [lia | assumption].
Qed.

Lemma stableSort_sorted (l : list A) :
  Forall ok l ->
  StronglySorted (fun x y => (rank x < rank y)%nat) l ->
  StronglySorted (placedBefore cmp rank) (stableSort cmp l).
Proof.
  intros Hok Hs. induction Hs as [|x l Hs IH Hx]; simpl; [constructor|].
  inversion Hok; subst. apply stableInsert_sorted; auto.
  - eapply Permutation_Forall; [symmetry; apply stableSort_perm | assumption].
  - eapply Permutation_Forall; [symmetry; apply stableSort_perm | assumption].
Qed.
End StableSortFacts.

Lemma StronglySorted_lookup {A : Type} (R : A -> A -> Prop) (l : list A) :
  StronglySorted R l ->
  forall p q x y, (p < q)%nat -> l !! p = Some x -> l !! q = Some y -> R x y.
Proof.
  induction 1 as [|z l Hs IH Hz]; intros p q x y Hpq Hp Hq; [discriminate|].
  destruct q as [|q]; [lia|]. simpl in Hq. destruct p as [|p]; simpl in Hp.
  - inversion Hp; subst. rewrite Forall_forall in Hz. apply Hz.
    eapply list_elem_of_lookup_2. exact Hq.
  - eapply IH; [|exact Hp|exact Hq]. lia.
Qed.

(** ** Facts on the grouping *)

Lemma compareRefs_total (store : list Annotation) (r1 r2 : nat) :
  is_Some (store !! r1) -> is_Some (store !! r2) ->
  compareRefs store r1 r2 <= 0 \/ compareRefs store r2 r1 <= 0.
Proof.
  intros [a Ha] [b Hb]. unfold compareRefs. rewrite Ha, Hb.
  apply compareAnnotations_total.
Qed.

Lemma compareRefs_trans (store : list Annotation) (r1 r2 r3 : nat) :
  is_Some (store !! r1) -> is_Some (store !! r2) -> is_Some (store !! r3) ->
  compareRefs store r1 r2 <= 0 -> compareRefs store r2 r3 <= 0 ->
  compareRefs store r1 r3 <= 0.
Proof.
  intros [a Ha] [b Hb] [c Hc]. unfold compareRefs. rewrite Ha, Hb, Hc.
  apply compareAnnotations_trans.
Qed.

(** A list has one arrangement sorted for an antisymmetric relation. *)
Lemma StronglySorted_unique {A : Type} (R : A -> A -> Prop) :
  (forall x y, R x y -> R y x -> x = y) ->
  forall l1 l2, Permutation l1 l2 -> StronglySorted R l1 -> StronglySorted R l2 -> l1 = l2.
Proof.
  intros Hanti. induction l1 as [|x l1 IH]; intros l2 Hperm Hs1 Hs2.
  - apply Permutation_nil in Hperm. congruence.
  - destruct l2 as [|y l2].
    + symmetry in Hperm. apply Permutation_nil in Hperm. discriminate.
    + inversion Hs1 as [|? ? Hs1' Hx]; subst. inversion Hs2 as [|? ? Hs2' Hy]; subst.
      rewrite Forall_forall in Hx, Hy.
      assert (E : x = y).
      { assert (Hxin : In x (y :: l2)).
        { eapply Permutation_in; [exact Hperm | left; reflexivity]. }
        assert (Hyin : In y (x :: l1)).
        { eapply Permutation_in; [symmetry; exact Hperm | left; reflexivity]. }
        destruct Hxin as [->|Hxin]; [reflexivity|].
        destruct Hyin as [->|Hyin]; [reflexivity|].
        apply Hanti; [apply Hx | apply Hy]; apply list_elem_of_In; assumption. }
      subst y. f_equal. apply IH; [|assumption|assumption].
      eapply Permutation_cons_inv. exact Hperm.
Qed.

(** The result of the sort does not depend on the algorithm: every
    arrangement of the references that is sorted for the comparator and keeps
    tied references in their order is the one [stableSort] computes. *)
Lemma stableSort_unique (store : list Annotation) (refs sorted : list nat) :
  validRefs store refs ->
  StronglySorted lt refs ->
  Permutation sorted refs ->
  StronglySorted (placedBefore (compareRefs store) (fun r => r)) sorted ->
  sorted = stableSort (compareRefs store) refs.
Proof.
  intros Hvalid Hinc Hperm Hsorted.
  apply (StronglySorted_unique (placedBefore (compareRefs store) (fun r => r))).
  - intros x y [Hxy Hx] [Hyx Hy]. specialize (Hx Hyx). specialize (Hy Hxy). lia.
  - rewrite Hperm. symmetry. apply stableSort_perm.
  - exact Hsorted.
  - apply (stableSort_sorted (compareRefs store) (fun r => r)
             (fun r => is_Some (store !! r))).
    + intros x y. apply compareRefs_total.
    + intros x y z. apply compareRefs_trans.
    + exact Hvalid.
    + exact Hinc.
Qed.

(** The references returned by [groupAnnotations]: each refers to an object
    of the array, the object of an input annotation that passed the scope
    test; they are sorted by the comparator, ties in increasing position. *)
Lemma groupAnnotations_facts (anns : list Annotation) (cf : list string) :
  let refs := fst (groupAnnotations anns cf) in
  let store := snd (groupAnnotations anns cf) in
  Forall2 countChanged anns store /\
  validRefs store refs /\
  Forall (fun r => exists a, anns !! r = Some a /\ inChangedFiles cf a = true) refs /\
  StronglySorted (placedBefore (compareRefs store) (fun r => r)) refs.
Proof.
  unfold groupAnnotations. destruct (groupLoop_inv cf anns) as [Hstore Hsorted Hrefs].
  destruct (groupLoop cf anns) as [store refs]. simpl in *.
  assert (Hin : Forall (fun r => exists a, anns !! r = Some a /\
                          inChangedFiles cf a = true) refs).
  { eapply Forall_impl; [exact Hrefs|]. intros r [_ H]. exact H. }
  assert (Hvalid : validRefs store refs).
  { eapply Forall_impl; [exact Hin|]. intros r (a & Ha & _).
    destruct (Forall2_lookup_l _ _ _ _ _ Hstore Ha) as (a' & Ha' & _). eauto. }
  split; [exact Hstore|]. split; [|split].
  - eapply Permutation_Forall; [symmetry; apply stableSort_perm | exact Hvalid].
  - eapply Permutation_Forall; [symmetry; apply stableSort_perm | exact Hin].
  - apply (stableSort_sorted (compareRefs store) (fun r => r)
             (fun r => is_Some (store !! r))).
    + intros x y. apply compareRefs_total.
    + intros x y z. apply compareRefs_trans.
    + exact Hvalid.
    + exact Hsorted.
Qed.

Lemma createReviewComments_unfold (cfg : TicsConfig) (anns : list Annotation)
    (cf : list string) :
  createReviewComments cfg anns cf =
  (map (toReviewComment cfg)
       (deref (snd (groupAnnotations anns cf)) (fst (groupAnnotations anns cf))),
   snd (groupAnnotations anns cf)).
Proof.
  unfold createReviewComments. destruct (groupAnnotations anns cf). reflexivity.
Qed.

(** Every candidate is the image of a grouped object, position by position. *)
Lemma candidates_lookup (cfg : TicsConfig) (anns : list Annotation) (cf : list string)
    (p : nat) (k : ReviewComment) :
  fst (createReviewComments cfg anns cf) !! p = Some k ->
  exists r a, fst (groupAnnotations anns cf) !! p = Some r /\
              snd (groupAnnotations anns cf) !! r = Some a /\
              k = toReviewComment cfg a.
Proof.
  rewrite createReviewComments_unfold. simpl.
  destruct (groupAnnotations_facts anns cf) as (_ & Hvalid & _).
  intros H. rewrite list_lookup_fmap in H.
  destruct (deref _ _ !! p) as [a|] eqn:E; [|discriminate]. inversion H; subst.
  assert (Hp : (p < length (fst (groupAnnotations anns cf)))%nat).
  { rewrite <- (deref_length _ _ Hvalid). eapply lookup_lt_Some. exact E. }
  destruct (lookup_lt_is_Some_2 _ _ Hp) as [r Hr].
  exists r, a. split; [exact Hr|]. split; [|reflexivity].
  rewrite <- (deref_lookup _ _ Hvalid p r Hr). exact E.
Qed.

Lemma candidates_lookup_ref (cfg : TicsConfig) (anns : list Annotation) (cf : list string)
    (p r : nat) (a : Annotation) :
  fst (groupAnnotations anns cf) !! p = Some r ->
  snd (groupAnnotations anns cf) !! r = Some a ->
  fst (createReviewComments cfg anns cf) !! p = Some (toReviewComment cfg a).
Proof.
  intros Hr Ha. rewrite createReviewComments_unfold. simpl.
  destruct (groupAnnotations_facts anns cf) as (_ & Hvalid & _).
  rewrite list_lookup_fmap, (deref_lookup _ _ Hvalid p r Hr), Ha. reflexivity.
Qed.

(** When no annotation passes the scope test nothing is grouped and the
    array is left as it was. *)
Lemma groupLoop_none_in_scope (cf : list string) (anns : list Annotation) :
  Forall (fun a => inChangedFiles cf a = false) anns ->
  groupLoop cf anns = (anns, []).
Proof.
  intros Hout. unfold groupLoop.
  apply (fold_left_seq_inv (groupStep cf) (fun _ st => st = (anns, []))); [reflexivity|].
  intros i s Hi ->. unfold groupStep.
  destruct (anns !! i) as [a|] eqn:E; [|reflexivity].
  rewrite Forall_forall in Hout. rewrite (Hout a); [reflexivity|].
  eapply list_elem_of_lookup_2. exact E.
Qed.

Lemma createReviewComments_none_in_scope (cfg : TicsConfig) (cf : list string)
    (anns : list Annotation) :
  Forall (fun a => inChangedFiles cf a = false) anns ->
  createReviewComments cfg anns cf = ([], anns).
Proof.
  intros H. unfold createReviewComments, groupAnnotations.
  rewrite (groupLoop_none_in_scope cf anns H). reflexivity.
Qed.

(** The grouping of a list of two annotations that pass the scope test. *)
Lemma createReviewComments_pair (cfg : TicsConfig) (a b : Annotation) (cf : list string) :
  inChangedFiles cf a = true -> inChangedFiles cf b = true ->
  createReviewComments cfg [a; b] cf =
  if sameAnnotation b a
  then ([toReviewComment cfg (addCount (count b) a)], [addCount (count b) a; b])
  else if compareAnnotations a b <=? 0
       then ([toReviewComment cfg a; toReviewComment cfg b], [a; b])
       else ([toReviewComment cfg b; toReviewComment cfg a], [a; b]).
Proof.
  intros Ha Hb.
  unfold createReviewComments, groupAnnotations, groupLoop. simpl.
  rewrite Ha. simpl. rewrite Hb. simpl.
  unfold findAnnotationInList. simpl.
  destruct (sameAnnotation b a); simpl; [reflexivity|].
  unfold compareRefs. simpl.
  destruct (compareAnnotations a b <=? 0); reflexivity.
Qed.

(** ** Deduplication (C1, C7) *)

(** C1, counterexample.  The claim as stated fails at two inputs.  First:
    two annotations equal in fullPath, type, line, rule, level and category,
    both with "a.ts" in their fullPath, whose [message] properties differ:
    [findAnnotationInList] does not find the first when it looks for the
    second, and the grouping yields two candidates.  Second: two equal
    annotations and the changed-file list [[""]], whose only entry is
    contained in every fullPath: the grouping yields no candidate. *)
Lemma deduplication_pair_counterexample :
  (sameKey (withMessage "/repo/a.ts" "first") (withMessage "/repo/a.ts" "second") /\
   In "a.ts" ["a.ts"] /\
   includes (fullPath (withMessage "/repo/a.ts" "first")) "a.ts" = true /\
   includes (fullPath (withMessage "/repo/a.ts" "second")) "a.ts" = true /\
   length (fst (createReviewComments exampleConfig
                  [withMessage "/repo/a.ts" "first"; withMessage "/repo/a.ts" "second"]
                  ["a.ts"])) = 2%nat) /\
  (In "" [""] /\
   includes "/repo/a.ts" "" = true /\
   fst (createReviewComments exampleConfig
          [mkAnnotation "/repo/a.ts" "T" 5 "R1" "L" "C" "x" None 1;
           mkAnnotation "/repo/a.ts" "T" 5 "R1" "L" "C" "x" None 1]
          [""]) = []).
Proof.
  split.
  - split; [repeat split|]. split; [left; reflexivity|].
    split; [reflexivity|]. split; reflexivity.
  - split; [left; reflexivity|]. split; reflexivity.
Qed.

(** C1, as amended.  Two annotations [a] and [b] that agree on fullPath,
    type, line, rule, level, category and on the [message] property, both
    with an entry of the changed files in their fullPath, the changed files
    having no empty entry: grouping [[a; b]] yields exactly one candidate, the
    one formatted from [a] with its count set to [a.count + b.count]. *)
Theorem deduplication_pair (cfg : TicsConfig) (a b : Annotation) (cf : list string) :
  sameKey a b ->
  message a = message b ->
  ~ In "" cf ->
  (exists c, In c cf /\ includes (fullPath a) c = true) ->
  (exists c, In c cf /\ includes (fullPath b) c = true) ->
  createReviewComments cfg [a; b] cf =
  ([toReviewComment cfg (setCount a (count a + count b))],
   [setCount a (count a + count b); b]).
Proof.
  intros Hkey Hmsg Hne Ha Hb.
  rewrite createReviewComments_pair by (apply inChangedFiles_nonempty; assumption).
  assert (E : sameAnnotation b a = true) by (apply sameAnnotation_spec; auto).
  rewrite E. reflexivity.
Qed.

(** The theorem at two duplicates of counts 1 and 4 that differ in [msg]. *)
Lemma deduplication_pair_witness :
  createReviewComments exampleConfig
    [exampleAnnotation "/repo/a.ts" 5 "x" 1; exampleAnnotation "/repo/a.ts" 5 "y" 4]
    ["a.ts"]
  = ([toReviewComment exampleConfig
        (setCount (exampleAnnotation "/repo/a.ts" 5 "x" 1) (1 + 4))],
     [setCount (exampleAnnotation "/repo/a.ts" 5 "x" 1) (1 + 4);
      exampleAnnotation "/repo/a.ts" 5 "y" 4]).
Proof.
  apply (deduplication_pair exampleConfig
           (exampleAnnotation "/repo/a.ts" 5 "x" 1)
           (exampleAnnotation "/repo/a.ts" 5 "y" 4) ["a.ts"]).
  - repeat split.
  - reflexivity.
  - simpl. intros [H|H]; [discriminate | exact H].
  - exists "a.ts". split; [left; reflexivity | reflexivity].
  - exists "a.ts". split; [left; reflexivity | reflexivity].
Defined.

(** C7, counterexample: the two annotations agree on fullPath, type, line,
    rule, level and category, both pass the scope test, and the fold keeps
    them apart, because their [message] properties differ. *)
Lemma duplicate_key_counterexample :
  sameKey (withMessage "/repo/b.ts" "one") (withMessage "/repo/b.ts" "two") /\
  inChangedFiles ["b.ts"] (withMessage "/repo/b.ts" "one") = true /\
  inChangedFiles ["b.ts"] (withMessage "/repo/b.ts" "two") = true /\
  findAnnotationInList [withMessage "/repo/b.ts" "one"] (withMessage "/repo/b.ts" "two")
    = None /\
  fst (groupAnnotations [withMessage "/repo/b.ts" "one"; withMessage "/repo/b.ts" "two"]
         ["b.ts"]) = [0%nat; 1%nat].
Proof. split; [repeat split|]. repeat split. Qed.

(** C7, as amended.  The fold treats two annotations that reach it as
    duplicates, that is groups [[a; b]] into one candidate, if and only if
    they agree on fullPath, type, line, rule, level, category and on the
    [message] property (an absent [message] agrees with an absent one only);
    [msg] is no part of the key. *)
Theorem duplicate_key (cfg : TicsConfig) (a b : Annotation) (cf : list string) :
  inChangedFiles cf a = true ->
  inChangedFiles cf b = true ->
  (length (fst (createReviewComments cfg [a; b] cf)) = 1%nat <->
   sameKey a b /\ message a = message b) /\
  (findAnnotationInList [a] b = Some O <-> sameKey a b /\ message a = message b) /\
  (forall m, sameAnnotation b (mkAnnotation (fullPath a) (type a) (line a) (rule a)
                                 (level a) (category a) m (message a) (count a))
             = sameAnnotation b a).
Proof.
  intros Ha Hb. split; [|split; [|intros m; reflexivity]].
  - rewrite createReviewComments_pair by assumption.
    rewrite <- sameAnnotation_spec.
    destruct (sameAnnotation b a); simpl; [split; auto|].
    destruct (compareAnnotations a b <=? 0); simpl; split; discriminate.
  - rewrite <- sameAnnotation_spec. unfold findAnnotationInList. simpl.
    destruct (sameAnnotation b a); simpl; split; auto; discriminate.
Qed.

(** Two annotations that differ in [msg] only are grouped into one candidate. *)
Lemma duplicate_key_witness :
  length (fst (createReviewComments exampleConfig
                 [exampleAnnotation "/repo/a.ts" 5 "x" 1;
                  exampleAnnotation "/repo/a.ts" 5 "other text" 1] ["a.ts"])) = 1%nat.
Proof.
  refine (proj2 (proj1 (duplicate_key exampleConfig
                          (exampleAnnotation "/repo/a.ts" 5 "x" 1)
                          (exampleAnnotation "/repo/a.ts" 5 "other text" 1)
                          ["a.ts"] _ _)) _).
  - reflexivity.
  - reflexivity.
  - split; [repeat split | reflexivity].
Defined.

(** ** Scope filtering (C5, C10) *)

(** C5.  An annotation whose fullPath contains no entry of the changed files
    is not among the grouped annotations, and every candidate of the output
    is formatted from an object of the array whose fullPath contains an entry
    of the changed files, so from one with another fullPath.  With no changed
    file, or with no annotation, the result is empty. *)
Theorem scope_filtering (cfg : TicsConfig) (anns : list Annotation) (cf : list string) :
  (forall i a,
      anns !! i = Some a ->
      (forall c, In c cf -> includes (fullPath a) c = false) ->
      ~ In i (fst (groupAnnotations anns cf)) /\
      forall k, In k (fst (createReviewComments cfg anns cf)) ->
        exists b, In b (snd (createReviewComments cfg anns cf)) /\
                  k = toReviewComment cfg b /\ fullPath b <> fullPath a) /\
  (forall k, In k (fst (createReviewComments cfg anns cf)) ->
     exists b c, k = toReviewComment cfg b /\ In c cf /\ includes (fullPath b) c = true) /\
  createReviewComments cfg anns [] = ([], anns) /\
  createReviewComments cfg [] cf = ([], []).
Proof.
  destruct (groupAnnotations_facts anns cf) as (Hstore & Hvalid & Hin & _).
  assert (Hcand : forall k, In k (fst (createReviewComments cfg anns cf)) ->
            exists b c, In b (snd (createReviewComments cfg anns cf)) /\
                        k = toReviewComment cfg b /\ In c cf /\
                        includes (fullPath b) c = true).
  { intros k Hk. rewrite createReviewComments_unfold in *. simpl in *.
    apply in_map_iff in Hk. destruct Hk as (b & <- & Hb).
    destruct (deref_elem _ _ _ Hb) as (r & Hr & Hrb).
    rewrite Forall_forall in Hin.
    destruct (Hin r) as (a0 & Ha0 & Hscope); [apply list_elem_of_In; exact Hr|].
    destruct (Forall2_lookup_l _ _ _ _ _ Hstore Ha0) as (b' & Hb' & Hcc).
    assert (b' = b) by congruence. subst b'.
    destruct (inChangedFiles_includes _ _ Hscope) as (c & Hc & Hinc).
    exists b, c. split; [|split; [reflexivity|split; [exact Hc|]]].
    - apply list_elem_of_In. eapply list_elem_of_lookup_2. exact Hrb.
    - rewrite (countChanged_fullPath _ _ Hcc). exact Hinc. }
  split; [|split; [|split]].
  - intros i a Hi Hout. split.
    + intros Hgrouped. rewrite Forall_forall in Hin.
      destruct (Hin i) as (a0 & Ha0 & Hscope); [apply list_elem_of_In; exact Hgrouped|].
      assert (a0 = a) by congruence. subst a0.
      destruct (inChangedFiles_includes _ _ Hscope) as (c & Hc & Hinc).
      rewrite (Hout c Hc) in Hinc. discriminate.
    + intros k Hk. destruct (Hcand k Hk) as (b & c & Hb & -> & Hc & Hinc).
      exists b. split; [exact Hb|]. split; [reflexivity|].
      intros E. rewrite E, (Hout c Hc) in Hinc. discriminate.
  - intros k Hk. destruct (Hcand k Hk) as (b & c & _ & -> & Hc & Hinc).
    exists b, c. auto.
  - apply createReviewComments_none_in_scope. apply Forall_forall. reflexivity.
  - reflexivity.
Qed.

(** An annotation of a file that did not change is not grouped. *)
Lemma scope_filtering_witness :
  ~ In O (fst (groupAnnotations
                 [exampleAnnotation "/repo/zzz.c" 1 "x" 1;
                  exampleAnnotation "/repo/a.ts" 5 "x" 1] ["a.ts"])).
Proof.
  refine (proj1 (proj1 (scope_filtering exampleConfig
                          [exampleAnnotation "/repo/zzz.c" 1 "x" 1;
                           exampleAnnotation "/repo/a.ts" 5 "x" 1] ["a.ts"])
                   O (exampleAnnotation "/repo/zzz.c" 1 "x" 1) _ _)).
  - reflexivity.
  - intros c [<-|[]]. reflexivity.
Defined.

(** C10.  With the changed-file list [[""]] [find] returns the empty string,
    which is falsy: every annotation is skipped, whatever its fullPath, and
    the result is empty. *)
Theorem empty_changed_file_drops_all (cfg : TicsConfig) (anns : list Annotation) :
  Forall (fun a => includes (fullPath a) "" = true) anns /\
  Forall (fun a => inChangedFiles [""] a = false) anns /\
  createReviewComments cfg anns [""] = ([], anns).
Proof.
  assert (H : Forall (fun a => inChangedFiles [""] a = false) anns).
  { apply Forall_forall. intros a _. unfold inChangedFiles. simpl.
    rewrite includes_empty. reflexivity. }
  split; [|split; [exact H|]].
  - apply Forall_forall. intros a _. apply includes_empty.
  - apply createReviewComments_none_in_scope. exact H.
Qed.

Example empty_changed_file_example :
  createReviewComments exampleConfig [exampleAnnotation "/repo/a.ts" 5 "x" 1] [""]
  = ([], [exampleAnnotation "/repo/a.ts" 5 "x" 1]).
Proof. reflexivity. Qed.

(** ** Calling the grouping twice (C2) *)

(** C2, counterexample: two duplicates of count 1.  The first call adds the
    count of the second annotation to the first object of the array; the
    second call, on the same array, adds it again: the bodies show 2 and 3. *)
Lemma grouping_twice_counterexample :
  let annotations := [exampleAnnotation "/repo/a.ts" 5 "x" 1;
                      exampleAnnotation "/repo/a.ts" 5 "x" 1] in
  let first := createReviewComments exampleConfig annotations ["a.ts"] in
  let second := createReviewComments exampleConfig (snd first) ["a.ts"] in
  map body (fst first) =
    [":warning: **TiCS: T violation: x** " ++ CRLF
       ++ "(2x) Line: 5, Rule: R1, Level: L, Category: C " ++ CRLF] /\
  map body (fst second) =
    [":warning: **TiCS: T violation: x** " ++ CRLF
       ++ "(3x) Line: 5, Rule: R1, Level: L, Category: C " ++ CRLF] /\
  fst first <> fst second.
Proof.
  split; [vm_compute; reflexivity|]. split; [vm_compute; reflexivity|].
  vm_compute. discriminate.
Qed.

Lemma groupLoop_noDuplicate (cf : list string) (anns : list Annotation) :
  noDuplicateInScope cf anns -> fst (groupLoop cf anns) = anns.
Proof.
  intros Hnd.
  assert (H : fst (groupLoop cf anns) = anns /\
              Forall (fun r => (r < length anns)%nat /\
                        exists a, anns !! r = Some a /\ inChangedFiles cf a = true)
                     (snd (groupLoop cf anns))); [|exact (proj1 H)].
  unfold groupLoop.
  apply (fold_left_seq_inv (groupStep cf)
           (fun i st => fst st = anns /\
              Forall (fun r => (r < i)%nat /\
                        exists a, anns !! r = Some a /\ inChangedFiles cf a = true)
                     (snd st))).
  - split; [reflexivity | constructor].
  - intros i [store refs] Hi [Hstore Hrefs]. simpl in Hstore, Hrefs. subst store.
    assert (Hweak : Forall (fun r => (r < S i)%nat /\
              exists a, anns !! r = Some a /\ inChangedFiles cf a = true) refs).
    { eapply Forall_impl; [exact Hrefs|]. intros r [? ?]. split; [lia | assumption]. }
    unfold groupStep.
    destruct (anns !! i) as [b|] eqn:Hb; [|split; [reflexivity | exact Hweak]].
    destruct (inChangedFiles cf b) eqn:Hscope; simpl;
      [|split; [reflexivity | exact Hweak]].
    assert (Hnone : findAnnotationInList (deref anns refs) b = None).
    { apply findIndex_None. apply Forall_forall. intros x Hx.
      apply list_elem_of_In in Hx. destruct (deref_elem _ _ _ Hx) as (r & Hr & Hrx).
      rewrite Forall_forall in Hrefs.
      destruct (Hrefs r) as (Hlt & a & Ha & Hsa); [apply list_elem_of_In; exact Hr|].
      assert (a = x) by congruence. subst a.
      apply (Hnd r i x b); assumption. }
    rewrite Hnone. simpl. split; [reflexivity|].
    apply Forall_app. split; [exact Hweak|]. repeat constructor.
    exists b. split; assumption.
Qed.

(** C2, as amended.  When no annotation in scope matches an earlier one in
    scope, the grouping leaves the array as it was, and a second call on it
    yields the same candidates, in order and content. *)
Theorem grouping_twice (cfg : TicsConfig) (anns : list Annotation) (cf : list string) :
  noDuplicateInScope cf anns ->
  snd (createReviewComments cfg anns cf) = anns /\
  fst (createReviewComments cfg (snd (createReviewComments cfg anns cf)) cf)
  = fst (createReviewComments cfg anns cf).
Proof.
  intros Hnd.
  assert (E : snd (createReviewComments cfg anns cf) = anns).
  { rewrite createReviewComments_unfold. simpl. unfold groupAnnotations.
    pose proof (groupLoop_noDuplicate cf anns Hnd) as H.
    destruct (groupLoop cf anns). exact H. }
  split; [exact E | rewrite E; reflexivity].
Qed.

(** Three annotations of which two are in scope and none is a duplicate. *)
Lemma grouping_twice_witness :
  let annotations := [exampleAnnotation "/repo/b.ts" 9 "y" 1;
                      exampleAnnotation "/repo/a.ts" 5 "x" 2;
                      exampleAnnotation "/other/c.ts" 5 "x" 1] in
  snd (createReviewComments exampleConfig annotations ["repo"]) = annotations /\
  fst (createReviewComments exampleConfig
         (snd (createReviewComments exampleConfig annotations ["repo"])) ["repo"])
  = fst (createReviewComments exampleConfig annotations ["repo"]).
Proof.
  apply (grouping_twice exampleConfig
           [exampleAnnotation "/repo/b.ts" 9 "y" 1;
            exampleAnnotation "/repo/a.ts" 5 "x" 2;
            exampleAnnotation "/other/c.ts" 5 "x" 1] ["repo"]).
  intros i j a b Hij Ha Hb _ _.
  destruct i as [|[|[|i]]]; destruct j as [|[|[|j]]]; simpl in Ha, Hb;
    try lia; try discriminate;
    inversion Ha; inversion Hb; subst; reflexivity.
Defined.

(** ** Sort order (C6) *)

(** C6, counterexample.  The sort compares [fullPath]; [path] is what is left
    of it once the prefix is removed.  Of two annotations of which only the
    first carries the prefix, the first is sorted first (its fullPath starts
    with "H", the other with "a"), and the paths come out as "z.ts", "a.ts":
    the candidate of the smaller path does not precede the other. *)
Lemma sort_order_counterexample :
  let out := fst (createReviewComments exampleConfig
                    [exampleAnnotation "HIE://proj/main/z.ts" 1 "x" 1;
                     exampleAnnotation "a.ts" 1 "x" 1] ["ts"]) in
  map path out = ["z.ts"; "a.ts"] /\
  (exists x y, out !! 1%nat = Some x /\ out !! O = Some y /\
               strLt (path x) (path y) /\ ~ (1 < 0)%nat).
Proof.
  split; [reflexivity|].
  eexists _, _. split; [reflexivity|]. split; [reflexivity|].
  split; [reflexivity | lia].
Qed.

(** The order of the sorted references, by the objects they refer to. *)
Lemma sort_order_aux (anns : list Annotation) (cf : list string)
    (p q rp rq : nat) (ap aq : Annotation) :
  fst (groupAnnotations anns cf) !! p = Some rp ->
  fst (groupAnnotations anns cf) !! q = Some rq ->
  snd (groupAnnotations anns cf) !! rp = Some ap ->
  snd (groupAnnotations anns cf) !! rq = Some aq ->
  (strLt (fullPath ap) (fullPath aq) -> (p < q)%nat) /\
  (fullPath ap = fullPath aq -> line ap < line aq -> (p < q)%nat) /\
  (fullPath ap = fullPath aq -> line ap = line aq -> (rp < rq)%nat -> (p < q)%nat).
Proof.
  intros Hp Hq Hap Haq.
  destruct (groupAnnotations_facts anns cf) as (_ & _ & _ & Hsorted).
  assert (Hback : (q < p)%nat ->
            compareAnnotations aq ap <= 0 /\
            (compareAnnotations ap aq <= 0 -> (rq < rp)%nat)).
  { intros Hlt.
    pose proof (StronglySorted_lookup _ _ Hsorted q p rq rp Hlt Hq Hp) as [H1 H2].
    unfold compareRefs in H1, H2. rewrite Hap, Haq in *. split; assumption. }
  assert (Hsame : p = q -> rp = rq /\ ap = aq).
  { intros ->. assert (rp = rq) by congruence. subst rq.
    split; [reflexivity | congruence]. }
  split; [|split].
  - intros Hlt. destruct (lt_eq_lt_dec p q) as [[H|H]|H]; [exact H| |].
    + destruct (Hsame H) as [_ ->]. elim (strLt_irrefl _ Hlt).
    + destruct (Hback H) as [Hle _]. apply compareAnnotations_le in Hle.
      destruct Hle as [Hle|[E _]].
      * elim (strLt_asym _ _ Hlt Hle).
      * rewrite E in Hlt. elim (strLt_irrefl _ Hlt).
  - intros E Hlt. destruct (lt_eq_lt_dec p q) as [[H|H]|H]; [exact H| |].
    + destruct (Hsame H) as [_ ->]. lia.
    + destruct (Hback H) as [Hle _]. apply compareAnnotations_le in Hle.
      destruct Hle as [Hle|[_ Hle]]; [|lia].
      rewrite E in Hle. elim (strLt_irrefl _ Hle).
  - intros E El Hr. destruct (lt_eq_lt_dec p q) as [[H|H]|H]; [exact H| |].
    + destruct (Hsame H) as [-> _]. lia.
    + destruct (Hback H) as [_ Hrank].
      assert (Hle : compareAnnotations ap aq <= 0).
      { apply compareAnnotations_le. right. split; [exact E | lia]. }
      specialize (Hrank Hle). lia.
Qed.

(** C6, as amended.  The candidate at position [p] is formatted from the
    object [ap] at reference [rp] of the array.  Candidates are ordered by
    the fullPath of these objects: a smaller fullPath comes first; for an
    equal fullPath a smaller line comes first; for an equal fullPath and line
    the one that comes first in the input comes first. *)
Theorem sort_order (cfg : TicsConfig) (anns : list Annotation) (cf : list string)
    (p q rp rq : nat) (ap aq : Annotation) :
  fst (groupAnnotations anns cf) !! p = Some rp ->
  fst (groupAnnotations anns cf) !! q = Some rq ->
  snd (groupAnnotations anns cf) !! rp = Some ap ->
  snd (groupAnnotations anns cf) !! rq = Some aq ->
  fst (createReviewComments cfg anns cf) !! p = Some (toReviewComment cfg ap) /\
  fst (createReviewComments cfg anns cf) !! q = Some (toReviewComment cfg aq) /\
  (strLt (fullPath ap) (fullPath aq) -> (p < q)%nat) /\
  (fullPath ap = fullPath aq -> line ap < line aq -> (p < q)%nat) /\
  (fullPath ap = fullPath aq -> line ap = line aq -> (rp < rq)%nat -> (p < q)%nat).
Proof.
  intros Hp Hq Hap Haq.
  split; [eapply candidates_lookup_ref; eassumption|].
  split; [eapply candidates_lookup_ref; eassumption|].
  apply (sort_order_aux anns cf p q rp rq ap aq); assumption.
Qed.

(** Two annotations given in the order b.ts, a.ts come out as a.ts, b.ts. *)
Lemma sort_order_witness :
  let annotations := [exampleAnnotation "/repo/b.ts" 9 "y" 1;
                      exampleAnnotation "/repo/a.ts" 5 "x" 2] in
  fst (createReviewComments exampleConfig annotations ["repo"]) !! O
    = Some (toReviewComment exampleConfig (exampleAnnotation "/repo/a.ts" 5 "x" 2)) /\
  fst (createReviewComments exampleConfig annotations ["repo"]) !! 1%nat
    = Some (toReviewComment exampleConfig (exampleAnnotation "/repo/b.ts" 9 "y" 1)) /\
  (strLt "/repo/a.ts" "/repo/b.ts" -> (0 < 1)%nat) /\
  ("/repo/a.ts" = "/repo/b.ts" -> 5 < 9 -> (0 < 1)%nat) /\
  ("/repo/a.ts" = "/repo/b.ts" -> 5 = 9 -> (1 < 0)%nat -> (0 < 1)%nat).
Proof.
  apply (sort_order exampleConfig
           [exampleAnnotation "/repo/b.ts" 9 "y" 1; exampleAnnotation "/repo/a.ts" 5 "x" 2]
           ["repo"] O 1%nat 1%nat O
           (exampleAnnotation "/repo/a.ts" 5 "x" 2)
           (exampleAnnotation "/repo/b.ts" 9 "y" 1)); reflexivity.
Defined.

(** The objects grouped keep the fullPath and line of the input annotations,
    so the order above is the order of the input's fullPath and line. *)
Lemma grouped_object_of_input (anns : list Annotation) (cf : list string)
    (p r : nat) :
  fst (groupAnnotations anns cf) !! p = Some r ->
  exists a a',
    anns !! r = Some a /\ snd (groupAnnotations anns cf) !! r = Some a' /\
    inChangedFiles cf a = true /\
    fullPath a' = fullPath a /\ line a' = line a.
Proof.
  intros Hp. destruct (groupAnnotations_facts anns cf) as (Hstore & _ & Hin & _).
  rewrite Forall_forall in Hin.
  destruct (Hin r) as (a & Ha & Hscope); [eapply list_elem_of_lookup_2; exact Hp|].
  destruct (Forall2_lookup_l _ _ _ _ _ Hstore Ha) as (a' & Ha' & Hcc).
  exists a, a'. repeat split; auto.
  - apply countChanged_fullPath. exact Hcc.
  - apply countChanged_line. exact Hcc.
Qed.

(** When every annotation in scope carries the prefix that is stripped, the
    order of the fullPaths is the order of the paths of the candidates. *)
Lemma sort_order_on_paths (cfg : TicsConfig) (anns : list Annotation) (cf : list string)
    (p q : nat) (x y : ReviewComment) :
  (forall a, In a anns -> inChangedFiles cf a = true ->
             String.prefix (hiePrefix cfg) (fullPath a) = true) ->
  fst (createReviewComments cfg anns cf) !! p = Some x ->
  fst (createReviewComments cfg anns cf) !! q = Some y ->
  (strLt (path x) (path y) -> (p < q)%nat) /\
  (path x = path y -> commentLine x < commentLine y -> (p < q)%nat).
Proof.
  intros Hpre Hx Hy.
  destruct (candidates_lookup _ _ _ _ _ Hx) as (rp & ap & Hrp & Hap & ->).
  destruct (candidates_lookup _ _ _ _ _ Hy) as (rq & aq & Hrq & Haq & ->).
  destruct (sort_order_aux anns cf p q rp rq ap aq Hrp Hrq Hap Haq) as (H1 & H2 & _).
  destruct (grouped_object_of_input _ _ _ _ Hrp) as (a0 & a0' & Ha0 & Ha0' & Hs0 & Hf0 & _).
  destruct (grouped_object_of_input _ _ _ _ Hrq) as (b0 & b0' & Hb0 & Hb0' & Hsb & Hfb & _).
  assert (a0' = ap) by congruence. assert (b0' = aq) by congruence. subst a0' b0'.
  assert (Hpa : String.prefix (hiePrefix cfg) (fullPath ap) = true).
  { rewrite Hf0. apply Hpre; [|exact Hs0].
    apply list_elem_of_In. eapply list_elem_of_lookup_2. exact Ha0. }
  assert (Hpb : String.prefix (hiePrefix cfg) (fullPath aq) = true).
  { rewrite Hfb. apply Hpre; [|exact Hsb].
    apply list_elem_of_In. eapply list_elem_of_lookup_2. exact Hb0. }
  destruct (prefix_split _ _ Hpa) as [ra Era]. destruct (prefix_split _ _ Hpb) as [rb Erb].
  unfold toReviewComment. simpl. rewrite Era, Erb, !replaceFirst_prefix.
  split.
  - intros Hlt. apply H1. rewrite Era, Erb. apply strLt_append. exact Hlt.
  - intros E Hl. apply H2; [rewrite Era, Erb, E; reflexivity | exact Hl].
Qed.

(** ** Runs of the posting protocol *)

Lemma extend_nil (w : World) : extend w [] = w.
Proof. destruct w. unfold extend. simpl. rewrite app_nil_r. reflexivity. Qed.

Lemma extend_extend (w : World) (e1 e2 : list Event) :
  extend (extend w e1) e2 = extend w (e1 ++ e2).
Proof. unfold extend. simpl. rewrite <- app_assoc. reflexivity. Qed.

Lemma emit_run (e : Event) (w : World) : emit e w = (Normal tt, extend w [e]).
Proof. reflexivity. Qed.

Lemma bind_run {A B : Type} (c : Js A) (k : A -> Js B) (w w' : World) (a : A) :
  c w = (Normal a, w') -> bind c k w = k a w'.
Proof. intros H. unfold bind. rewrite H. reflexivity. Qed.

Lemma getPostedReviewComments_run (gh : GithubConfig) (env : Env) (w : World) :
  getPostedReviewComments gh env w =
  (Normal (match listReply env with inr posted => Some posted | inl _ => None end),
   extend w (listEvents gh env)).
Proof.
  unfold getPostedReviewComments, listEvents.
  destruct (listReply env) as [m|posted]; js_norm; reflexivity.
Qed.

Lemma extend_cons (w : World) (e : Event) (es : list Event) :
  extend w (e :: es) = extend (extend w [e]) es.
Proof. rewrite extend_extend. reflexivity. Qed.

Lemma mapJs_cons {A B : Type} (f : A -> Js B) (x : A) (l : list A) :
  mapJs f (x :: l) = bind (f x) (fun y => bind (mapJs f l) (fun ys => ret (y :: ys))).
Proof. reflexivity. Qed.

Lemma deleteCallback_run (gh : GithubConfig) (c : PostedReviewComment) (w : World) :
  deleteCallback gh c w =
  if startsWithMarker c
  then (Normal (Some (deleteRequest gh c)), extend w [Called (deleteRequest gh c)])
  else (Normal None, w).
Proof.
  unfold deleteCallback. rewrite marker_test. fold (startsWithMarker c).
  destruct (startsWithMarker c); reflexivity.
Qed.

Lemma deleteCallbacks_run (gh : GithubConfig) (posted : list PostedReviewComment)
    (w : World) :
  exists suspended,
    mapJs (deleteCallback gh) posted w =
      (Normal suspended,
       extend w (map Called (map (deleteRequest gh) (List.filter startsWithMarker posted))))
    /\ omap (fun r => r) suspended
       = map (deleteRequest gh) (List.filter startsWithMarker posted).
Proof.
  revert w. induction posted as [|c posted IH]; intros w.
  - exists []. simpl. rewrite extend_nil. split; reflexivity.
  - rewrite mapJs_cons. unfold bind at 1. rewrite deleteCallback_run. simpl List.filter.
    destruct (startsWithMarker c).
    + destruct (IH (extend w [Called (deleteRequest gh c)])) as (suspended & Hrun & Hs).
      exists (Some (deleteRequest gh c) :: suspended).
      split; [|simpl; f_equal; exact Hs].
      rewrite (bind_run _ _ _ _ _ Hrun). unfold ret. rewrite extend_extend. reflexivity.
    + destruct (IH w) as (suspended & Hrun & Hs).
      exists (None :: suspended). split; [|exact Hs].
      rewrite (bind_run _ _ _ _ _ Hrun). reflexivity.
Qed.

Lemma deletePreviousReviewComments_run (gh : GithubConfig)
    (posted : list PostedReviewComment) (w : World) :
  deletePreviousReviewComments gh posted w =
  (Normal (map (deleteRequest gh) (List.filter startsWithMarker posted)),
   extend w ([Logged Header "Deleting review comments of previous runs."]
             ++ map Called (map (deleteRequest gh) (List.filter startsWithMarker posted))
             ++ [Logged Info "Deleted review comments of previous runs."])).
Proof.
  unfold deletePreviousReviewComments, log.
  rewrite (bind_run _ _ _ _ _ (emit_run _ _)).
  destruct (deleteCallbacks_run gh posted
              (extend w [Logged Header "Deleting review comments of previous runs."]))
    as (suspended & Hrun & Hs).
  rewrite (bind_run _ _ _ _ _ Hrun).
  rewrite (bind_run _ _ _ _ _ (emit_run _ _)).
  unfold ret. rewrite Hs, !extend_extend. reflexivity.
Qed.

Lemma createCallbacks_run (gh : GithubConfig) (review : Review)
    (comments : list ReviewComment) (w : World) :
  mapJs (createCallback gh review) comments w =
  (Normal (map (createRequest gh review) comments),
   extend w (map Called (map (createRequest gh review) comments))).
Proof.
  revert w. induction comments as [|c comments IH]; intros w.
  - simpl. rewrite extend_nil. reflexivity.
  - rewrite mapJs_cons.
    assert (H : createCallback gh review c w =
                (Normal (createRequest gh review c),
                 extend w [Called (createRequest gh review c)])) by reflexivity.
    rewrite (bind_run _ _ _ _ _ H), (bind_run _ _ _ _ _ (IH _)).
    unfold ret. rewrite extend_extend. reflexivity.
Qed.

Lemma resume_run (env : Env) (p : Pending) (u : list ReviewComment) (w : World) :
  resume env p u w
  = (Normal (u ++ contribution env p)%list, extend w (resumeEvents env p)).
Proof.
  destruct p as [request j|request i comment]; simpl.
  - unfold deleteResume. destruct (deleteReply env j) as [m|]; js_norm;
      rewrite app_nil_r; reflexivity.
  - unfold createResume. destruct (createReply env i) as [m|]; js_norm;
      rewrite ?app_nil_r; reflexivity.
Qed.

(** [await Promise.all] resumes the callbacks of [order], which holds every
    create callback; it never throws. *)
Lemma awaitAll_run (env : Env) (fuel : nat) :
  forall (choices : list nat) (pending : list Pending) (u : list ReviewComment)
         (w : World),
    (length pending <= fuel)%nat ->
    exists order rest,
      Permutation pending (order ++ rest)%list /\
      Forall (fun p => isCreate p = false) rest /\
      awaitAll env fuel choices pending u w =
        (Normal (u ++ flat_map (contribution env) order)%list,
         extend w (flat_map (resumeEvents env) order)).
Proof.
  induction fuel as [|fuel IH]; intros choices pending u w Hlen.
  - destruct pending; [|simpl in Hlen; lia].
    exists [], []. simpl. rewrite app_nil_r, extend_nil. repeat split; constructor.
  - simpl. destruct (existsb isCreate pending) eqn:Hex; simpl.
    + assert (Hpos : (0 < length pending)%nat).
      { destruct pending; [discriminate | simpl; lia]. }
      set (k := (hd O choices mod length pending)%nat).
      assert (Hk : (k < length pending)%nat) by (apply Nat.mod_upper_bound; lia).
      destruct (lookup_lt_is_Some_2 pending k Hk) as [p Hp]. rewrite Hp.
      unfold bind. rewrite resume_run.
      destruct (IH (tl choices) (delete k pending) (u ++ contribution env p)%list
                  (extend w (resumeEvents env p))) as (order & rest & Hperm & Hrest & Hrun).
      { rewrite length_delete by eauto. lia. }
      exists (p :: order), rest. split; [|split; [exact Hrest|]].
      * simpl. rewrite <- Hperm. apply delete_Permutation. exact Hp.
      * rewrite Hrun. simpl. rewrite extend_extend, <- app_assoc. reflexivity.
    + exists [], pending. simpl. rewrite app_nil_r, extend_nil.
      split; [reflexivity|]. split; [|reflexivity].
      apply Forall_forall. intros p Hin. apply list_elem_of_In in Hin.
      destruct (isCreate p) eqn:E; [|reflexivity].
      assert (existsb isCreate pending = true) by (apply existsb_exists; eauto).
      congruence.
Qed.

Lemma contribution_deletes (env : Env) (requests : list Request) (j : nat) :
  flat_map (contribution env) (pendingDeletes j requests) = [].
Proof.
  revert j. induction requests as [|r requests IH]; intros j; simpl; [reflexivity|].
  apply IH.
Qed.

Lemma contribution_creates (env : Env) (gh : GithubConfig) (review : Review)
    (comments : list ReviewComment) (i : nat) :
  flat_map (contribution env)
           (pendingCreates i (map (createRequest gh review) comments) comments)
  = rejectedComments env i comments.
Proof.
  revert i. induction comments as [|c comments IH]; intros i; simpl; [reflexivity|].
  rewrite IH. destruct (createReply env i); reflexivity.
Qed.

Lemma contribution_not_create (env : Env) (rest : list Pending) :
  Forall (fun p => isCreate p = false) rest -> flat_map (contribution env) rest = [].
Proof.
  induction 1 as [|p rest Hp _ IH]; simpl; [reflexivity|].
  rewrite IH. destruct p; [reflexivity | discriminate].
Qed.

(** A run of [postReviewComments] in closed form: it returns normally, and
    its events are those of the listing, of the purge, the create requests
    and the replies handled at the [await], in this order. *)
Lemma postReviewComments_run (gh : GithubConfig) (cfg : TicsConfig) (env : Env)
    (review : Review) (anns : list Annotation) (cf : list string) (w : World) :
  exists order,
    Permutation (flat_map (contribution env) order)
                (rejectedComments env 0 (fst (createReviewComments cfg anns cf))) /\
    postReviewComments gh cfg env review anns cf w =
      (Normal (flat_map (contribution env) order),
       mkWorld
         (trace w ++ listEvents gh env ++ purgeEvents gh env
            ++ [Logged Header "Posting review comments."]
            ++ map Called (map (createRequest gh review)
                               (fst (createReviewComments cfg anns cf)))
            ++ flat_map (resumeEvents env) order
            ++ [Logged Info "Posted review comments."])
         (snd (createReviewComments cfg anns cf))).
Proof.
  unfold postReviewComments.
  rewrite (bind_run _ _ _ _ _ (getPostedReviewComments_run gh env w)).
  assert (Hdel : (match (match listReply env with
                         | inr posted => Some posted | inl _ => None end) with
                  | Some posted => deletePreviousReviewComments gh posted
                  | None => ret []
                  end) (extend w (listEvents gh env))
                 = (Normal (deletesIssued gh env),
                    extend w (listEvents gh env ++ purgeEvents gh env))).
  { unfold purgeEvents, deletesIssued. destruct (listReply env) as [m|posted].
    - unfold ret. rewrite app_nil_r. reflexivity.
    - rewrite deletePreviousReviewComments_run, extend_extend. reflexivity. }
  rewrite (bind_run _ _ _ _ _ Hdel).
  destruct (createReviewComments cfg anns cf) as [comments anns'] eqn:Hcrc. simpl fst. simpl snd.
  set (w1 := extend w (listEvents gh env ++ purgeEvents gh env)).
  assert (Hheap : setHeap anns' w1 = (Normal tt, mkWorld (trace w1) anns')) by reflexivity.
  rewrite (bind_run _ _ _ _ _ Hheap). unfold log.
  rewrite (bind_run _ _ _ _ _ (emit_run _ _)).
  rewrite (bind_run _ _ _ _ _ (createCallbacks_run gh review comments _)).
  set (pending := (pendingDeletes 0 (deletesIssued gh env)
                   ++ pendingCreates 0 (map (createRequest gh review) comments) comments)%list).
  set (w2 := extend _ (map Called _)).
  destruct (awaitAll_run env (length pending) (arrival env) pending [] w2 (le_n _))
    as (order & rest & Hperm & Hrest & Hrun).
  exists order. split.
  - assert (E : flat_map (contribution env) pending
                = rejectedComments env 0 comments).
    { unfold pending. rewrite flat_map_app, contribution_deletes, contribution_creates.
      reflexivity. }
    rewrite <- E. rewrite (Permutation_flat_map (contribution env) Hperm).
    rewrite flat_map_app, (contribution_not_create env rest Hrest), app_nil_r.
    reflexivity.
  - rewrite (bind_run _ _ _ _ _ Hrun).
    rewrite (bind_run _ _ _ _ _ (emit_run _ _)). unfold ret.
    f_equal. unfold w2, w1, extend. simpl. f_equal.
    rewrite <- !app_assoc. reflexivity.
Qed.

(** ** What a run shows *)

Lemma deleteCalls_app (t1 t2 : list Event) :
  deleteCalls (t1 ++ t2) = (deleteCalls t1 ++ deleteCalls t2)%list.
Proof. apply flat_map_app. Qed.

Lemma createCalls_app (t1 t2 : list Event) :
  createCalls (t1 ++ t2) = (createCalls t1 ++ createCalls t2)%list.
Proof. apply flat_map_app. Qed.

Lemma calls_none (t : list Event) :
  Forall (fun e => isCall e = false) t -> deleteCalls t = [] /\ createCalls t = [].
Proof.
  induction 1 as [|e t He _ [IH1 IH2]]; [split; reflexivity|].
  unfold deleteCalls, createCalls in *. simpl. rewrite IH1, IH2.
  destruct e; try discriminate; split; reflexivity.
Qed.

Lemma listEvents_calls (gh : GithubConfig) (env : Env) :
  deleteCalls (listEvents gh env) = [] /\ createCalls (listEvents gh env) = [].
Proof. unfold listEvents. destruct (listReply env); split; reflexivity. Qed.

Lemma listEvents_no_delete_reply (gh : GithubConfig) (env : Env) :
  Forall (fun e => isDeleteReply e = false) (listEvents gh env).
Proof. unfold listEvents. destruct (listReply env); repeat constructor. Qed.

Lemma deleteCalls_requests (gh : GithubConfig) (l : list PostedReviewComment) :
  deleteCalls (map Called (map (deleteRequest gh) l)) = map id l /\
  createCalls (map Called (map (deleteRequest gh) l)) = [] /\
  Forall (fun e => isDeleteReply e = false) (map Called (map (deleteRequest gh) l)).
Proof.
  induction l as [|c l (IH1 & IH2 & IH3)]; [repeat split; constructor|].
  unfold deleteCalls, createCalls in *. simpl. rewrite IH1, IH2.
  repeat split. constructor; [reflexivity | exact IH3].
Qed.

Lemma createCalls_requests (gh : GithubConfig) (review : Review)
    (comments : list ReviewComment) :
  createCalls (map Called (map (createRequest gh review) comments)) = comments /\
  deleteCalls (map Called (map (createRequest gh review) comments)) = [] /\
  Forall (fun e => isDeleteReply e = false)
         (map Called (map (createRequest gh review) comments)).
Proof.
  induction comments as [|c comments (IH1 & IH2 & IH3)]; [repeat split; constructor|].
  unfold deleteCalls, createCalls in *. simpl. rewrite IH1, IH2.
  destruct c. repeat split. constructor; [reflexivity | exact IH3].
Qed.

Lemma purgeEvents_calls (gh : GithubConfig) (env : Env) :
  deleteCalls (purgeEvents gh env)
  = match listReply env with
    | inr posted => map id (List.filter startsWithMarker posted)
    | inl _ => []
    end /\
  createCalls (purgeEvents gh env) = [] /\
  Forall (fun e => isDeleteReply e = false) (purgeEvents gh env).
Proof.
  unfold purgeEvents, deletesIssued. destruct (listReply env) as [m|posted];
    [repeat split; constructor|].
  destruct (deleteCalls_requests gh (List.filter startsWithMarker posted))
    as (H1 & H2 & H3).
  rewrite !deleteCalls_app, !createCalls_app, H1, H2. simpl.
  rewrite app_nil_r. repeat split.
  constructor; [reflexivity|]. apply Forall_app. split; [exact H3|].
  repeat constructor.
Qed.

Lemma resumeEvents_no_call (env : Env) (order : list Pending) :
  Forall (fun e => isCall e = false) (flat_map (resumeEvents env) order).
Proof.
  induction order as [|p order IH]; simpl; [constructor|].
  apply Forall_app. split; [|exact IH].
  destruct p as [r j|r i c]; simpl;
    [destruct (deleteReply env j) | destruct (createReply env i)]; repeat constructor.
Qed.

(** The calls of a run: the delete requests are those for the listed comments
    that start with the marker, the create requests those for the candidates;
    all are issued in a first part of the trace in which no reply to a delete
    request is handled, and the rest of the trace issues no request. *)
Lemma run_calls (gh : GithubConfig) (cfg : TicsConfig) (env : Env)
    (review : Review) (anns : list Annotation) (cf : list string) :
  exists unposted before after,
    run (postReviewComments gh cfg env review anns cf) anns
      = (Normal unposted,
         mkWorld (before ++ after) (snd (createReviewComments cfg anns cf))) /\
    Permutation unposted
                (rejectedComments env 0 (fst (createReviewComments cfg anns cf))) /\
    before = (listEvents gh env ++ purgeEvents gh env
                ++ [Logged Header "Posting review comments."]
                ++ map Called (map (createRequest gh review)
                                   (fst (createReviewComments cfg anns cf))))%list /\
    Forall (fun e => isDeleteReply e = false) before /\
    Forall (fun e => isCall e = false) after /\
    deleteCalls (before ++ after)
      = match listReply env with
        | inr posted => map id (List.filter startsWithMarker posted)
        | inl _ => []
        end /\
    createCalls (before ++ after) = fst (createReviewComments cfg anns cf).
Proof.
  destruct (postReviewComments_run gh cfg env review anns cf (mkWorld [] anns))
    as (order & Hperm & Hrun).
  destruct (listEvents_calls gh env) as [L1 L2].
  destruct (purgeEvents_calls gh env) as (P1 & P2 & P3).
  destruct (createCalls_requests gh review (fst (createReviewComments cfg anns cf)))
    as (C1 & C2 & C3).
  assert (Hafter : Forall (fun e => isCall e = false)
                     (flat_map (resumeEvents env) order
                        ++ [Logged Info "Posted review comments."])).
  { apply Forall_app. split; [apply resumeEvents_no_call | repeat constructor]. }
  destruct (calls_none _ Hafter) as [A1 A2].
  exists (flat_map (contribution env) order),
         (listEvents gh env ++ purgeEvents gh env
            ++ [Logged Header "Posting review comments."]
            ++ map Called (map (createRequest gh review)
                               (fst (createReviewComments cfg anns cf))))%list,
         (flat_map (resumeEvents env) order
            ++ [Logged Info "Posted review comments."])%list.
  split; [|split; [exact Hperm|split; [reflexivity|]]].
  - unfold run. rewrite Hrun. simpl. rewrite <- !app_assoc. reflexivity.
  - split; [|split; [exact Hafter|split]].
    + apply Forall_app. split; [apply listEvents_no_delete_reply|].
      apply Forall_app. split; [exact P3|]. constructor; [reflexivity | exact C3].
    + rewrite deleteCalls_app, A1, !deleteCalls_app, L1, P1, C2. simpl.
      rewrite !app_nil_r. reflexivity.
    + rewrite createCalls_app, A2, !createCalls_app, L2, P2, C1. simpl.
      rewrite !app_nil_r. reflexivity.
Qed.

Lemma rejectedComments_spec (env : Env) (comments : list ReviewComment) (i : nat)
    (c : ReviewComment) :
  In c (rejectedComments env i comments) <->
  exists k m, comments !! k = Some c /\ createReply env (i + k) = Some m.
Proof.
  revert i. induction comments as [|c0 comments IH]; intros i; simpl.
  - split; [contradiction|]. intros (k & m & Hk & _). discriminate.
  - destruct (createReply env i) as [m0|] eqn:E; simpl; rewrite IH.
    + split.
      * intros [->|(k & m & Hk & Hm)].
        -- exists O, m0. rewrite Nat.add_0_r. split; [reflexivity | exact E].
        -- exists (S k), m. rewrite <- Nat.add_succ_comm. split; assumption.
      * intros ([|k] & m & Hk & Hm); simpl in Hk.
        -- left. congruence.
        -- right. exists k, m. rewrite Nat.add_succ_comm. split; assumption.
    + split.
      * intros (k & m & Hk & Hm). exists (S k), m.
        rewrite <- Nat.add_succ_comm. split; assumption.
      * intros ([|k] & m & Hk & Hm); simpl in Hk.
        -- rewrite Nat.add_0_r in Hm. congruence.
        -- exists k, m. rewrite Nat.add_succ_comm. split; assumption.
Qed.

(** ** Partial posting (C4) *)

(** C4.  Whatever subset of the create requests the environment rejects, and
    in whatever order the replies arrive, [postReviewComments] returns
    normally (it does not throw); the comments it returns are, up to order,
    the candidates whose request was rejected; and one create request was
    issued for every candidate. *)
Theorem partial_posting (gh : GithubConfig) (cfg : TicsConfig) (env : Env)
    (review : Review) (anns : list Annotation) (cf : list string) :
  exists unposted w',
    run (postReviewComments gh cfg env review anns cf) anns = (Normal unposted, w') /\
    Permutation unposted
                (rejectedComments env 0 (fst (createReviewComments cfg anns cf))) /\
    createCalls (trace w') = fst (createReviewComments cfg anns cf).
Proof.
  destruct (run_calls gh cfg env review anns cf)
    as (unposted & before & after & Hrun & Hperm & _ & _ & _ & _ & Hcreate).
  exists unposted, (mkWorld (before ++ after) (snd (createReviewComments cfg anns cf))).
  split; [exact Hrun|]. split; [exact Hperm | exact Hcreate].
Qed.

Example partial_posting_example :
  fst (run (postReviewComments exampleGithub exampleConfig failingEnv exampleReview
              [exampleAnnotation "/repo/a.ts" 5 "x" 1;
               exampleAnnotation "/repo/b.ts" 9 "y" 1;
               exampleAnnotation "/repo/c.ts" 2 "z" 1] ["repo"])
           [exampleAnnotation "/repo/a.ts" 5 "x" 1;
            exampleAnnotation "/repo/b.ts" 9 "y" 1;
            exampleAnnotation "/repo/c.ts" 2 "z" 1])
  = Normal [toReviewComment exampleConfig (exampleAnnotation "/repo/b.ts" 9 "y" 1)].
Proof. vm_compute. reflexivity. Qed.

(** ** The purge (C3, C8, C9) *)

(** C8.  When the listing succeeds, the delete requests issued are those for
    the listed comments whose body starts with the marker, one for each, in
    the order of the listing, and no other; the test of the code is the
    prefix test. *)
Theorem purge_marker (gh : GithubConfig) (cfg : TicsConfig) (env : Env)
    (review : Review) (anns : list Annotation) (cf : list string)
    (posted : list PostedReviewComment) :
  listReply env = inr posted ->
  deleteCalls (trace (snd (run (postReviewComments gh cfg env review anns cf) anns)))
    = map id (List.filter startsWithMarker posted) /\
  (forall c, (substring 0 17 (postedBody c) =? ":warning: **TiCS:")%string
             = startsWithMarker c) /\
  (forall c, startsWithMarker c = true <->
             exists rest, postedBody c = ":warning: **TiCS:" ++ rest).
Proof.
  intros Hlist.
  destruct (run_calls gh cfg env review anns cf)
    as (unposted & before & after & Hrun & _ & _ & _ & _ & Hdelete & _).
  rewrite Hrun. simpl. rewrite Hdelete, Hlist.
  split; [reflexivity|]. split.
  - intros c. apply marker_test.
  - intros c. unfold startsWithMarker. split.
    + apply prefix_split.
    + intros [rest ->]. apply prefix_append.
Qed.

(** Of the two listed comments only the one with the marker is deleted. *)
Lemma purge_marker_witness :
  deleteCalls (trace (snd (run (postReviewComments exampleGithub exampleConfig exampleEnv
                                  exampleReview
                                  [exampleAnnotation "/repo/a.ts" 5 "x" 1] ["a.ts"])
                               [exampleAnnotation "/repo/a.ts" 5 "x" 1])))
  = map id (List.filter startsWithMarker
              [mkPostedReviewComment 7 ":warning: **TiCS: T violation: old** ";
               mkPostedReviewComment 8 "a comment of a reviewer"]).
Proof.
  apply (purge_marker exampleGithub exampleConfig exampleEnv exampleReview
           [exampleAnnotation "/repo/a.ts" 5 "x" 1] ["a.ts"]
           [mkPostedReviewComment 7 ":warning: **TiCS: T violation: old** ";
            mkPostedReviewComment 8 "a comment of a reviewer"]).
  reflexivity.
Defined.

(** C9.  When the listing fails with message [m], the run logs the failure,
    issues no delete request, issues the create request of every candidate
    and returns normally, with the rejected candidates as usual. *)
Theorem listing_failure (gh : GithubConfig) (cfg : TicsConfig) (env : Env)
    (review : Review) (anns : list Annotation) (cf : list string) (m : string) :
  listReply env = inl m ->
  exists unposted w',
    run (postReviewComments gh cfg env review anns cf) anns = (Normal unposted, w') /\
    In (Logged Error ("Could not retrieve the review comments: " ++ m)) (trace w') /\
    deleteCalls (trace w') = [] /\
    createCalls (trace w') = fst (createReviewComments cfg anns cf) /\
    Permutation unposted
                (rejectedComments env 0 (fst (createReviewComments cfg anns cf))).
Proof.
  intros Hlist.
  destruct (run_calls gh cfg env review anns cf)
    as (unposted & before & after & Hrun & Hperm & Hbefore & _ & _ & Hdelete & Hcreate).
  exists unposted, (mkWorld (before ++ after) (snd (createReviewComments cfg anns cf))).
  split; [exact Hrun|]. simpl. rewrite Hdelete, Hlist.
  split; [|split; [reflexivity|split; [exact Hcreate | exact Hperm]]].
  apply in_or_app. left. rewrite Hbefore. apply in_or_app. left.
  unfold listEvents. rewrite Hlist. simpl. auto.
Qed.

(** A run whose listing fails with "Bad credentials". *)
Lemma listing_failure_witness :
  exists unposted w',
    run (postReviewComments exampleGithub exampleConfig failingEnv exampleReview
           [exampleAnnotation "/repo/a.ts" 5 "x" 1] ["a.ts"])
        [exampleAnnotation "/repo/a.ts" 5 "x" 1] = (Normal unposted, w') /\
    In (Logged Error ("Could not retrieve the review comments: " ++ "Bad credentials"))
       (trace w') /\
    deleteCalls (trace w') = [] /\
    createCalls (trace w')
      = fst (createReviewComments exampleConfig
               [exampleAnnotation "/repo/a.ts" 5 "x" 1] ["a.ts"]) /\
    Permutation unposted
      (rejectedComments failingEnv 0
         (fst (createReviewComments exampleConfig
                 [exampleAnnotation "/repo/a.ts" 5 "x" 1] ["a.ts"]))).
Proof.
  apply (listing_failure exampleGithub exampleConfig failingEnv exampleReview
           [exampleAnnotation "/repo/a.ts" 5 "x" 1] ["a.ts"] "Bad credentials").
  reflexivity.
Defined.


(** C3.  A run with one comment of an earlier run to purge and one candidate
    to post: the delete request is issued, "Deleted review comments of
    previous runs." is logged, and the create request is issued, before the
    reply to the delete request is handled.  The purge is started before the
    posting but is not completed before it. *)
Theorem purge_not_completed_before_posting :
  run (postReviewComments exampleGithub exampleConfig exampleEnv exampleReview
         [exampleAnnotation "/repo/a.ts" 5 "x" 1] ["a.ts"])
      [exampleAnnotation "/repo/a.ts" 5 "x" 1]
  = (Normal [],
     mkWorld
       [Logged Info "Retrieving posted review comments.";
        Called (ListReviewComments "asml" "repo" "12");
        Settled (ListReviewComments "asml" "repo" "12") true;
        Logged Header "Deleting review comments of previous runs.";
        Called (DeleteReviewComment "asml" "repo" 7);
        Logged Info "Deleted review comments of previous runs.";
        Logged Header "Posting review comments.";
        Called (CreateReviewComment "asml" "repo" "12" "4f2a9c"
                  (":warning: **TiCS: T violation: x** " ++ CRLF
                     ++ "Line: 5, Rule: R1, Level: L, Category: C " ++ CRLF)
                  5 "/repo/a.ts");
        Settled (DeleteReviewComment "asml" "repo" 7) true;
        Settled (CreateReviewComment "asml" "repo" "12" "4f2a9c"
                   (":warning: **TiCS: T violation: x** " ++ CRLF
                      ++ "Line: 5, Rule: R1, Level: L, Category: C " ++ CRLF)
                   5 "/repo/a.ts") true;
        Logged Info "Posted review comments."]
       [exampleAnnotation "/repo/a.ts" 5 "x" 1]).
Proof. vm_compute. reflexivity. Qed.

(** ** The scenarios of the specification *)

Example group_scenario :
  fst (createReviewComments exampleConfig
         [exampleAnnotation "/repo/a.ts" 5 "x" 1; exampleAnnotation "/repo/a.ts" 5 "x" 1]
         ["a.ts"])
  = [mkReviewComment
       (":warning: **TiCS: T violation: x** " ++ CRLF
          ++ "(2x) Line: 5, Rule: R1, Level: L, Category: C " ++ CRLF)
       "/repo/a.ts" 5].
Proof. vm_compute. reflexivity. Qed.

Example group_scenario_out_of_scope :
  fst (createReviewComments exampleConfig
         [exampleAnnotation "/repo/a.ts" 5 "x" 1; exampleAnnotation "/repo/a.ts" 5 "x" 1]
         ["b.ts"])
  = [].
Proof. vm_compute. reflexivity. Qed.

(** The count of a duplicate goes to the object of the array at the position
    the duplicate was found at in [groupedAnnotations]: with an annotation
    out of scope in front, that object is not the grouped one. *)
Example group_count_misplaced :
  createReviewComments exampleConfig
    [exampleAnnotation "/other/z.c" 1 "o" 1;
     exampleAnnotation "/repo/a.ts" 5 "x" 1;
     exampleAnnotation "/repo/a.ts" 5 "x" 1] ["a.ts"]
  = ([toReviewComment exampleConfig (exampleAnnotation "/repo/a.ts" 5 "x" 1)],
     [exampleAnnotation "/other/z.c" 1 "o" 2;
      exampleAnnotation "/repo/a.ts" 5 "x" 1;
      exampleAnnotation "/repo/a.ts" 5 "x" 1]).
Proof. vm_compute. reflexivity. Qed.

(** * Further properties of the grouping *)

Lemma countChanged_sameButCount (a a' : Annotation) :
  countChanged a a' -> sameButCount a a'.
Proof. intros [n ->]. reflexivity. Qed.

Lemma sameButCount_sameAnnotation (a a' b b' : Annotation) :
  sameButCount a a' -> sameButCount b b' ->
  sameAnnotation a' b' = sameAnnotation a b.
Proof.
  unfold sameButCount, setCount. intros Ha Hb.
  inversion Ha. inversion Hb. unfold sameAnnotation. congruence.
Qed.

Lemma sameAnnotation_refl (a : Annotation) : sameAnnotation a a = true.
Proof. apply sameAnnotation_spec. repeat split. Qed.

Lemma sameAnnotation_sym (a b : Annotation) : sameAnnotation a b = sameAnnotation b a.
Proof.
  destruct (sameAnnotation b a) eqn:E.
  - apply sameAnnotation_spec in E. apply sameAnnotation_spec.
    unfold sameKey in *. intuition congruence.
  - destruct (sameAnnotation a b) eqn:E'; [|reflexivity].
    apply sameAnnotation_spec in E'.
    assert (sameAnnotation b a = true); [|congruence].
    apply sameAnnotation_spec. unfold sameKey in *. intuition congruence.
Qed.

Lemma lookup_alter_addCount (c : Z) (k : nat) (store : list Annotation) (r : nat)
    (b' : Annotation) :
  alter (addCount c) k store !! r = Some b' ->
  exists b, store !! r = Some b /\ countChanged b b'.
Proof.
  destruct (decide (k = r)) as [->|Hne].
  - rewrite list_lookup_alter_eq. destruct (store !! r) as [b|]; [|discriminate].
    simpl. intros H. inversion H; subst. exists b. split; [reflexivity|].
    exists (count b + c). reflexivity.
  - rewrite list_lookup_alter_ne by exact Hne. intros H. exists b'.
    split; [exact H | apply countChanged_refl].
Qed.

Lemma lookup_alter_addCount_2 (c : Z) (k : nat) (store : list Annotation) (r : nat)
    (b : Annotation) :
  store !! r = Some b ->
  exists b', alter (addCount c) k store !! r = Some b' /\ countChanged b b'.
Proof.
  intros H. destruct (decide (k = r)) as [->|Hne].
  - rewrite list_lookup_alter_eq, H. simpl. eexists. split; [reflexivity|].
    exists (count b + c). reflexivity.
  - rewrite list_lookup_alter_ne by exact Hne. exists b.
    split; [exact H | apply countChanged_refl].
Qed.

Lemma findIndex_lt {A : Type} (p : A -> bool) (l : list A) (i : nat) :
  findIndex p l = Some i -> (i < length l)%nat.
Proof.
  intros H. destruct (findIndex_Some p l i H) as (x & Hx & _).
  eapply lookup_lt_Some. exact Hx.
Qed.

Lemma deref_length_le (annotations : list Annotation) (refs : list nat) :
  (length (deref annotations refs) <= length refs)%nat.
Proof.
  induction refs as [|r refs IH]; [reflexivity|].
  destruct (annotations !! r) as [a|] eqn:E.
  - rewrite (deref_cons _ _ _ _ E). simpl. lia.
  - assert (H : deref annotations (r :: refs) = deref annotations refs).
    { unfold deref. simpl. rewrite E. reflexivity. }
    rewrite H. simpl. lia.
Qed.

Lemma deref_lookup_inv (annotations : list Annotation) (refs : list nat) (p : nat)
    (x : Annotation) :
  validRefs annotations refs -> deref annotations refs !! p = Some x ->
  exists r, refs !! p = Some r /\ annotations !! r = Some x.
Proof.
  intros Hvalid Hx.
  assert (Hp : (p < length refs)%nat).
  { rewrite <- (deref_length _ _ Hvalid). eapply lookup_lt_Some. exact Hx. }
  destruct (lookup_lt_is_Some_2 _ _ Hp) as [r Hr]. exists r. split; [exact Hr|].
  rewrite <- (deref_lookup _ _ Hvalid p r Hr). exact Hx.
Qed.

Lemma groupInv_valid (cf : list string) (anns : list Annotation) (i : nat)
    (store : list Annotation) (refs : list nat) :
  groupInv cf anns i (store, refs) -> validRefs store refs.
Proof.
  intros [Hstore _ Hrefs]. simpl in *.
  eapply Forall_impl; [exact Hrefs|]. intros r (_ & a & Ha & _).
  destruct (Forall2_lookup_l _ _ _ _ _ Hstore Ha) as (a' & Ha' & _). eauto.
Qed.

Lemma groupStep_dedupInv (cf : list string) (anns : list Annotation) (i : nat)
    (st : list Annotation * list nat) :
  (i < length anns)%nat ->
  groupInv cf anns i st -> dedupInv cf anns i st ->
  dedupInv cf anns (S i) (groupStep cf st i).
Proof.
  intros Hi Hinv [Hcover Hdistinct Hbound]. destruct st as [store refs].
  pose proof (groupInv_valid _ _ _ _ _ Hinv) as Hvalid.
  destruct Hinv as [Hstore Hsorted Hrefs]. simpl in *.
  destruct (lookup_lt_is_Some_2 anns i Hi) as [a Ha].
  destruct (Forall2_lookup_l _ _ _ _ _ Hstore Ha) as (a' & Ha' & Hcc).
  unfold groupStep. rewrite Ha'. rewrite (countChanged_scope cf _ _ Hcc).
  destruct (inChangedFiles cf a) eqn:Hscope; simpl.
  - destruct (findAnnotationInList (deref store refs) a') as [index|] eqn:Hfind.
    + (* a duplicate: the count goes to [annotations[index]] *)
      destruct (findIndex_Some _ _ _ Hfind) as (x & Hx & Hsame).
      destruct (deref_lookup_inv _ _ _ _ Hvalid Hx) as (rx & Hrx & Hsx).
      assert (Hrxi : (rx < i)%nat).
      { rewrite Forall_forall in Hrefs.
        destruct (Hrefs rx) as [H _]; [eapply list_elem_of_lookup_2; exact Hrx | exact H]. }
      constructor; simpl.
      * intros j b Hj Hb Hsb.
        assert (Hcase : (j < i)%nat \/ j = i) by lia.
        destruct Hcase as [Hlt | ->].
        -- destruct (Hcover j b Hlt Hb Hsb) as (r & y & Hr & Hrj & Hy & Hby).
           destruct (lookup_alter_addCount_2 (count a') index store r y Hy)
             as (y' & Hy' & Hyy).
           exists r, y'. repeat split; auto.
           rewrite <- Hby. apply sameButCount_sameAnnotation; [exact eq_refl|].
           apply countChanged_sameButCount. exact Hyy.
        -- assert (b = a) by congruence. subst b.
           destruct (lookup_alter_addCount_2 (count a') index store rx x Hsx)
             as (x' & Hx' & Hxx).
           exists rx, x'. split; [|split; [lia|split; [exact Hx'|]]].
           ++ apply list_elem_of_In. eapply list_elem_of_lookup_2. exact Hrx.
           ++ rewrite <- Hsame. apply sameButCount_sameAnnotation.
              ** unfold sameButCount. symmetry.
                 apply countChanged_sameButCount. exact Hcc.
              ** apply countChanged_sameButCount. exact Hxx.
      * intros p q rp rq bp bq Hpq Hp Hq Hbp Hbq.
        destruct (lookup_alter_addCount _ _ _ _ _ Hbp) as (bp0 & Hbp0 & Hcp).
        destruct (lookup_alter_addCount _ _ _ _ _ Hbq) as (bq0 & Hbq0 & Hcq).
        rewrite <- (Hdistinct p q rp rq bp0 bq0 Hpq Hp Hq Hbp0 Hbq0).
        apply sameButCount_sameAnnotation; apply countChanged_sameButCount; assumption.
      * intros j Hj. rewrite list_lookup_alter_ne; [apply Hbound; exact Hj|].
        pose proof (findIndex_lt _ _ _ Hfind) as Hlt.
        pose proof (deref_length_le store refs). lia.
    + (* a new key: the reference is pushed *)
      apply findIndex_None in Hfind.
      constructor; simpl.
      * intros j b Hj Hb Hsb.
        assert (Hcase : (j < i)%nat \/ j = i) by lia.
        destruct Hcase as [Hlt | ->].
        -- destruct (Hcover j b Hlt Hb Hsb) as (r & y & Hr & Hrj & Hy & Hby).
           exists r, y. repeat split; auto. apply in_or_app. left. exact Hr.
        -- assert (b = a) by congruence. subst b.
           exists i, a'. split; [apply in_or_app; right; left; reflexivity|].
           split; [lia|]. split; [exact Ha'|].
           rewrite <- (sameAnnotation_refl a).
           apply sameButCount_sameAnnotation; [exact eq_refl|].
           apply countChanged_sameButCount. exact Hcc.
      * intros p q rp rq bp bq Hpq Hp Hq Hbp Hbq.
        assert (Hq' : (q < length refs)%nat \/ q = length refs).
        { apply lookup_lt_Some in Hq. rewrite length_app in Hq. simpl in Hq. lia. }
        destruct Hq' as [Hlt | ->].
        -- rewrite lookup_app_l in Hq by exact Hlt.
           rewrite lookup_app_l in Hp by lia.
           exact (Hdistinct p q rp rq bp bq Hpq Hp Hq Hbp Hbq).
        -- rewrite lookup_app_l in Hp by exact Hpq.
           rewrite lookup_app_r in Hq by lia.
           replace (length refs - length refs)%nat with O in Hq by lia.
           simpl in Hq. inversion Hq; subst rq.
           assert (bq = a') by congruence. subst bq.
           rewrite Forall_forall in Hfind. apply Hfind.
           eapply list_elem_of_lookup_2.
           rewrite (deref_lookup _ _ Hvalid p rp Hp). exact Hbp.
      * intros j Hj. apply Hbound. rewrite length_app in Hj. simpl in Hj. lia.
  - constructor; simpl; [|exact Hdistinct|exact Hbound].
    intros j b Hj Hb Hsb.
    assert (Hcase : (j < i)%nat \/ j = i) by lia.
    destruct Hcase as [Hlt | ->]; [apply Hcover; assumption|].
    assert (b = a) by congruence. subst b. congruence.
Qed.

Lemma groupLoop_dedupInv (cf : list string) (anns : list Annotation) :
  groupInv cf anns (length anns) (groupLoop cf anns) /\
  dedupInv cf anns (length anns) (groupLoop cf anns).
Proof.
  unfold groupLoop.
  apply (fold_left_seq_inv (groupStep cf)
           (fun i st => groupInv cf anns i st /\ dedupInv cf anns i st)).
  - split.
    + constructor; simpl; [|constructor|constructor].
      induction anns; constructor; [apply countChanged_refl | assumption].
    + constructor; simpl.
      * intros j a Hj. lia.
      * intros p q rp rq bp bq _ Hp. discriminate.
      * reflexivity.
  - intros i s Hi [H1 H2]. split.
    + apply groupStep_inv; assumption.
    + apply groupStep_dedupInv; assumption.
Qed.

Lemma StronglySorted_lt_NoDup (l : list nat) : StronglySorted lt l -> NoDup l.
Proof.
  induction 1 as [|x l _ IH Hx]; constructor; [|exact IH].
  intros Hin. rewrite Forall_forall in Hx. specialize (Hx x Hin). lia.
Qed.

Lemma groupAnnotations_loop (anns : list Annotation) (cf : list string) :
  snd (groupAnnotations anns cf) = fst (groupLoop cf anns) /\
  Permutation (fst (groupAnnotations anns cf)) (snd (groupLoop cf anns)).
Proof.
  unfold groupAnnotations. destruct (groupLoop cf anns) as [store refs]. simpl.
  split; [reflexivity | apply stableSort_perm].
Qed.

(** Every annotation that passes the scope test is represented: a candidate
    is formatted from an object of the array, at a position not after the
    annotation's, that matches it for [findAnnotationInList]; the candidate
    has the path and the line of the annotation. *)
Theorem annotation_in_scope_is_represented (cfg : TicsConfig) (anns : list Annotation)
    (cf : list string) (j : nat) (a : Annotation) :
  anns !! j = Some a ->
  inChangedFiles cf a = true ->
  exists p r b,
    fst (groupAnnotations anns cf) !! p = Some r /\ (r <= j)%nat /\
    snd (groupAnnotations anns cf) !! r = Some b /\
    sameAnnotation a b = true /\
    fst (createReviewComments cfg anns cf) !! p = Some (toReviewComment cfg b) /\
    path (toReviewComment cfg b) = path (toReviewComment cfg a) /\
    commentLine (toReviewComment cfg b) = line a.
Proof.
  intros Ha Hscope.
  destruct (groupLoop_dedupInv cf anns) as [_ [Hcover _ _]].
  destruct (groupAnnotations_loop anns cf) as [Hstore Hperm].
  destruct (Hcover j a) as (r & b & Hr & Hrj & Hb & Hsame); auto.
  { eapply lookup_lt_Some. exact Ha. }
  assert (Hin : r ∈ fst (groupAnnotations anns cf)).
  { rewrite Hperm. apply list_elem_of_In. exact Hr. }
  apply list_elem_of_lookup_1 in Hin. destruct Hin as [p Hp].
  rewrite <- Hstore in Hb.
  exists p, r, b. split; [exact Hp|]. split; [exact Hrj|]. split; [exact Hb|].
  split; [exact Hsame|]. split; [eapply candidates_lookup_ref; eassumption|].
  apply sameAnnotation_spec in Hsame. destruct Hsame as [(Hf & _ & Hl & _) _].
  unfold toReviewComment. simpl. rewrite Hf, Hl. split; reflexivity.
Qed.

(** An annotation listed after a duplicate of itself is represented by the
    candidate of the first of the two. *)
Lemma annotation_in_scope_is_represented_witness :
  exists p r b,
    fst (groupAnnotations [exampleAnnotation "/repo/a.ts" 5 "x" 1;
                           exampleAnnotation "/repo/a.ts" 5 "y" 1] ["a.ts"]) !! p
      = Some r /\ (r <= 1)%nat /\
    snd (groupAnnotations [exampleAnnotation "/repo/a.ts" 5 "x" 1;
                           exampleAnnotation "/repo/a.ts" 5 "y" 1] ["a.ts"]) !! r
      = Some b /\
    sameAnnotation (exampleAnnotation "/repo/a.ts" 5 "y" 1) b = true /\
    fst (createReviewComments exampleConfig
           [exampleAnnotation "/repo/a.ts" 5 "x" 1;
            exampleAnnotation "/repo/a.ts" 5 "y" 1] ["a.ts"]) !! p
      = Some (toReviewComment exampleConfig b) /\
    path (toReviewComment exampleConfig b)
      = path (toReviewComment exampleConfig (exampleAnnotation "/repo/a.ts" 5 "y" 1)) /\
    commentLine (toReviewComment exampleConfig b)
      = line (exampleAnnotation "/repo/a.ts" 5 "y" 1).
Proof.
  apply (annotation_in_scope_is_represented exampleConfig
           [exampleAnnotation "/repo/a.ts" 5 "x" 1;
            exampleAnnotation "/repo/a.ts" 5 "y" 1] ["a.ts"] 1%nat
           (exampleAnnotation "/repo/a.ts" 5 "y" 1)); reflexivity.
Defined.

(** No two candidates are formatted from objects that match for
    [findAnnotationInList]: one candidate per key. *)
Theorem candidates_have_distinct_keys (anns : list Annotation) (cf : list string)
    (p q rp rq : nat) (bp bq : Annotation) :
  p <> q ->
  fst (groupAnnotations anns cf) !! p = Some rp ->
  fst (groupAnnotations anns cf) !! q = Some rq ->
  snd (groupAnnotations anns cf) !! rp = Some bp ->
  snd (groupAnnotations anns cf) !! rq = Some bq ->
  sameAnnotation bq bp = false.
Proof.
  intros Hpq Hp Hq Hbp Hbq.
  destruct (groupLoop_dedupInv cf anns) as [[_ Hsorted _] [_ Hdistinct _]].
  destruct (groupAnnotations_loop anns cf) as [Hstore Hperm].
  rewrite Hstore in Hbp, Hbq.
  assert (Hnd : NoDup (fst (groupAnnotations anns cf))).
  { rewrite Hperm. apply StronglySorted_lt_NoDup. exact Hsorted. }
  assert (Hne : rp <> rq).
  { intros E. subst rq. apply Hpq. eapply NoDup_lookup; eassumption. }
  assert (Hip : rp ∈ snd (groupLoop cf anns)).
  { rewrite <- Hperm. eapply list_elem_of_lookup_2. exact Hp. }
  assert (Hiq : rq ∈ snd (groupLoop cf anns)).
  { rewrite <- Hperm. eapply list_elem_of_lookup_2. exact Hq. }
  apply list_elem_of_lookup_1 in Hip. destruct Hip as [p' Hp'].
  apply list_elem_of_lookup_1 in Hiq. destruct Hiq as [q' Hq'].
  destruct (lt_eq_lt_dec p' q') as [[Hlt|Heq]|Hgt].
  - exact (Hdistinct p' q' rp rq bp bq Hlt Hp' Hq' Hbp Hbq).
  - subst q'. congruence.
  - rewrite sameAnnotation_sym.
    exact (Hdistinct q' p' rq rp bq bp Hgt Hq' Hp' Hbq Hbp).
Qed.

(** Two annotations with different rules give candidates of different keys. *)
Lemma candidates_have_distinct_keys_witness :
  sameAnnotation (mkAnnotation "/repo/a.ts" "T" 5 "R2" "L" "C" "x" None 1)
                 (exampleAnnotation "/repo/a.ts" 5 "x" 1) = false.
Proof.
  apply (candidates_have_distinct_keys
           [exampleAnnotation "/repo/a.ts" 5 "x" 1;
            mkAnnotation "/repo/a.ts" "T" 5 "R2" "L" "C" "x" None 1] ["a.ts"]
           O 1%nat O 1%nat); [lia | reflexivity..].
Defined.

(** The grouping leaves the array at its length and changes no property of
    its objects but [count]; it changes a count only at a position below the
    number of candidates it returns. *)
Theorem grouping_changes_counts_only (cfg : TicsConfig) (anns : list Annotation)
    (cf : list string) :
  Forall2 countChanged anns (snd (createReviewComments cfg anns cf)) /\
  length (snd (createReviewComments cfg anns cf)) = length anns /\
  (forall j, (length (fst (createReviewComments cfg anns cf)) <= j)%nat ->
             snd (createReviewComments cfg anns cf) !! j = anns !! j).
Proof.
  destruct (groupLoop_dedupInv cf anns) as [[Hstore _ _] [_ _ Hbound]].
  destruct (groupAnnotations_loop anns cf) as [Hs Hperm].
  destruct (groupAnnotations_facts anns cf) as (_ & Hvalid & _).
  rewrite createReviewComments_unfold. simpl. rewrite Hs in *.
  split; [exact Hstore|]. split; [symmetry; eapply Forall2_length; exact Hstore|].
  intros j Hj. apply Hbound.
  rewrite length_map, (deref_length _ _ Hvalid), Hperm in Hj. exact Hj.
Qed.

Lemma sumCounts_app (l1 l2 : list Annotation) :
  sumCounts (l1 ++ l2) = sumCounts l1 + sumCounts l2.
Proof.
  induction l1 as [|b l1 IH]; simpl; [reflexivity|].
  unfold sumCounts in *. simpl. rewrite IH. lia.
Qed.

Lemma setCount_count (a : Annotation) : setCount a (count a) = a.
Proof. destruct a; reflexivity. Qed.

Lemma sameAnnotation_scope (cf : list string) (a b : Annotation) :
  sameAnnotation b a = true -> inChangedFiles cf b = inChangedFiles cf a.
Proof.
  intros H. apply sameAnnotation_spec in H. destruct H as [(Hf & _) _].
  unfold inChangedFiles. rewrite Hf. reflexivity.
Qed.

Lemma groupLoop_duplicates (cf : list string) (a : Annotation) (l : list Annotation) :
  inChangedFiles cf a = true ->
  Forall (fun b => sameAnnotation b a = true) l ->
  groupLoop cf (a :: l) = (setCount a (count a + sumCounts l) :: l, [O]).
Proof.
  intros Ha Hl.
  assert (H : match length (a :: l) with
              | O => groupLoop cf (a :: l) = (a :: l, [])
              | S k => groupLoop cf (a :: l)
                       = (setCount a (count a + sumCounts (take k l)) :: l, [O])
              end).
  { unfold groupLoop.
    apply (fold_left_seq_inv (groupStep cf)
             (fun i st => match i with
                          | O => st = (a :: l, [])
                          | S k => st = (setCount a (count a + sumCounts (take k l)) :: l,
                                         [O])
                          end)); [reflexivity|].
    intros [|k] st Hi Hst; subst st.
    - unfold groupStep. simpl. rewrite Ha. simpl.
      rewrite Z.add_0_r, setCount_count. reflexivity.
    - simpl in Hi. assert (Hk : (k < length l)%nat) by lia.
      destruct (lookup_lt_is_Some_2 l k Hk) as [b Hb].
      assert (Hsame : sameAnnotation b a = true).
      { rewrite Forall_forall in Hl. apply Hl. eapply list_elem_of_lookup_2. exact Hb. }
      unfold groupStep. simpl. rewrite Hb.
      rewrite (sameAnnotation_scope cf a b Hsame), Ha. simpl.
      unfold findAnnotationInList. simpl.
      rewrite sameAnnotation_setCount_r, Hsame. simpl.
      rewrite (take_S_r l k b Hb), sumCounts_app.
      unfold addCount, setCount. simpl. f_equal. f_equal. f_equal. lia. }
  simpl in H. rewrite H. rewrite firstn_all. reflexivity.
Qed.

(** A list that holds an annotation in scope followed by duplicates of it
    yields one candidate, formatted from the first annotation with the counts
    of all of them added up. *)
Theorem deduplication_many (cfg : TicsConfig) (a : Annotation) (l : list Annotation)
    (cf : list string) :
  inChangedFiles cf a = true ->
  Forall (fun b => sameAnnotation b a = true) l ->
  createReviewComments cfg (a :: l) cf =
  ([toReviewComment cfg (setCount a (count a + sumCounts l))],
   setCount a (count a + sumCounts l) :: l).
Proof.
  intros Ha Hl. unfold createReviewComments, groupAnnotations.
  rewrite (groupLoop_duplicates cf a l Ha Hl). reflexivity.
Qed.

(** Three duplicates of counts 1, 2 and 4 give one candidate of count 7. *)
Lemma deduplication_many_witness :
  createReviewComments exampleConfig
    [exampleAnnotation "/repo/a.ts" 5 "x" 1; exampleAnnotation "/repo/a.ts" 5 "y" 2;
     exampleAnnotation "/repo/a.ts" 5 "z" 4] ["a.ts"]
  = ([toReviewComment exampleConfig
        (setCount (exampleAnnotation "/repo/a.ts" 5 "x" 1)
           (1 + sumCounts [exampleAnnotation "/repo/a.ts" 5 "y" 2;
                           exampleAnnotation "/repo/a.ts" 5 "z" 4]))],
     setCount (exampleAnnotation "/repo/a.ts" 5 "x" 1)
       (1 + sumCounts [exampleAnnotation "/repo/a.ts" 5 "y" 2;
                       exampleAnnotation "/repo/a.ts" 5 "z" 4])
       :: [exampleAnnotation "/repo/a.ts" 5 "y" 2;
           exampleAnnotation "/repo/a.ts" 5 "z" 4]).
Proof.
  apply (deduplication_many exampleConfig (exampleAnnotation "/repo/a.ts" 5 "x" 1)
           [exampleAnnotation "/repo/a.ts" 5 "y" 2;
            exampleAnnotation "/repo/a.ts" 5 "z" 4] ["a.ts"]).
  - reflexivity.
  - repeat constructor.
Defined.

(** The count of a duplicate is added to the object of the array at the
    position the match has in [groupedAnnotations].  With an annotation out
    of scope in front of two duplicates in scope that object is the one out
    of scope: the candidate keeps the count of the first duplicate, and the
    count of the second is added to an object that yields no candidate. *)
Theorem duplicate_count_misplaced (cfg : TicsConfig) (o a b : Annotation)
    (cf : list string) :
  inChangedFiles cf o = false ->
  inChangedFiles cf a = true ->
  sameAnnotation b a = true ->
  createReviewComments cfg [o; a; b] cf =
  ([toReviewComment cfg a], [addCount (count b) o; a; b]).
Proof.
  intros Ho Ha Hsame.
  pose proof (sameAnnotation_scope cf a b Hsame) as Hb. rewrite Ha in Hb.
  unfold createReviewComments, groupAnnotations, groupLoop. simpl.
  rewrite Ho. simpl. rewrite Ha. simpl. rewrite Hb. simpl.
  unfold findAnnotationInList. simpl. rewrite Hsame. reflexivity.
Qed.

(** An annotation of a file that did not change, then two duplicates. *)
Lemma duplicate_count_misplaced_witness :
  createReviewComments exampleConfig
    [exampleAnnotation "/other/z.c" 1 "o" 1; exampleAnnotation "/repo/a.ts" 5 "x" 1;
     exampleAnnotation "/repo/a.ts" 5 "x" 3] ["a.ts"]
  = ([toReviewComment exampleConfig (exampleAnnotation "/repo/a.ts" 5 "x" 1)],
     [addCount (count (exampleAnnotation "/repo/a.ts" 5 "x" 3))
               (exampleAnnotation "/other/z.c" 1 "o" 1);
      exampleAnnotation "/repo/a.ts" 5 "x" 1; exampleAnnotation "/repo/a.ts" 5 "x" 3]).
Proof.
  apply (duplicate_count_misplaced exampleConfig
           (exampleAnnotation "/other/z.c" 1 "o" 1)
           (exampleAnnotation "/repo/a.ts" 5 "x" 1)
           (exampleAnnotation "/repo/a.ts" 5 "x" 3) ["a.ts"]); reflexivity.
Defined.

(** ** The grouping and the counts *)

Lemma fold_left_rel {S1 S2 B : Type} (R : S1 -> S2 -> Prop)
    (f : S1 -> B -> S1) (g : S2 -> B -> S2) (l : list B) :
  (forall s1 s2 x, R s1 s2 -> R (f s1 x) (g s2 x)) ->
  forall s1 s2, R s1 s2 -> R (fold_left f l s1) (fold_left g l s2).
Proof.
  intros Hstep. induction l as [|x l IH]; intros s1 s2 H; simpl; [exact H|].
  apply IH. apply Hstep. exact H.
Qed.

Lemma sameButCount_fields (a a' : Annotation) :
  sameButCount a a' -> fullPath a = fullPath a' /\ line a = line a'.
Proof. unfold sameButCount, setCount. intros H. inversion H. split; reflexivity. Qed.

Lemma sameButCount_lookup (s1 s2 : list Annotation) (r : nat) :
  Forall2 sameButCount s1 s2 ->
  (s1 !! r = None /\ s2 !! r = None) \/
  (exists a1 a2, s1 !! r = Some a1 /\ s2 !! r = Some a2 /\ sameButCount a1 a2).
Proof.
  intros H. destruct (s1 !! r) as [a1|] eqn:E.
  - right. destruct (Forall2_lookup_l _ _ _ _ _ H E) as (a2 & E2 & Ha). eauto.
  - left. split; [reflexivity|]. apply lookup_ge_None. apply lookup_ge_None in E.
    rewrite <- (Forall2_length _ _ _ H). exact E.
Qed.

Lemma deref_sameButCount (s1 s2 : list Annotation) (refs : list nat) :
  Forall2 sameButCount s1 s2 ->
  Forall2 sameButCount (deref s1 refs) (deref s2 refs).
Proof.
  intros H. induction refs as [|r refs IH]; [constructor|].
  destruct (sameButCount_lookup s1 s2 r H) as [[E1 E2]|(a1 & a2 & E1 & E2 & Ha)].
  - assert (D1 : deref s1 (r :: refs) = deref s1 refs).
    { unfold deref. simpl. rewrite E1. reflexivity. }
    assert (D2 : deref s2 (r :: refs) = deref s2 refs).
    { unfold deref. simpl. rewrite E2. reflexivity. }
    rewrite D1, D2. exact IH.
  - rewrite (deref_cons _ _ _ _ E1), (deref_cons _ _ _ _ E2).
    constructor; assumption.
Qed.

Lemma findIndex_rel {A B : Type} (R : A -> B -> Prop) (p : A -> bool) (q : B -> bool)
    (l1 : list A) (l2 : list B) :
  (forall x y, R x y -> p x = q y) ->
  Forall2 R l1 l2 -> findIndex p l1 = findIndex q l2.
Proof.
  intros Hpq. induction 1 as [|x y l1 l2 Hxy _ IH]; simpl; [reflexivity|].
  rewrite (Hpq x y Hxy), IH. reflexivity.
Qed.

Lemma groupStep_sameButCount (cf : list string) (i : nat)
    (st1 st2 : list Annotation * list nat) :
  Forall2 sameButCount (fst st1) (fst st2) /\ snd st1 = snd st2 ->
  Forall2 sameButCount (fst (groupStep cf st1 i)) (fst (groupStep cf st2 i)) /\
  snd (groupStep cf st1 i) = snd (groupStep cf st2 i).
Proof.
  destruct st1 as [s1 refs], st2 as [s2 refs2]. simpl. intros [Hs <-].
  unfold groupStep.
  destruct (sameButCount_lookup s1 s2 i Hs) as [[E1 E2]|(a1 & a2 & E1 & E2 & Ha)];
    rewrite E1, E2; [split; [exact Hs | reflexivity]|].
  destruct (sameButCount_fields _ _ Ha) as [Hf _].
  unfold inChangedFiles. rewrite <- Hf.
  destruct (truthy (find (fun c => includes (fullPath a1) c) cf)); simpl;
    [|split; [exact Hs | reflexivity]].
  assert (Hfind : findAnnotationInList (deref s1 refs) a1
                  = findAnnotationInList (deref s2 refs) a2).
  { unfold findAnnotationInList.
    apply (findIndex_rel sameButCount); [|apply deref_sameButCount; exact Hs].
    intros x y Hxy. apply eq_sym. apply sameButCount_sameAnnotation; assumption. }
  rewrite <- Hfind.
  destruct (findAnnotationInList (deref s1 refs) a1) as [index|]; simpl;
    [|split; [exact Hs | reflexivity]].
  split; [|reflexivity]. apply Forall2_alter; [exact Hs|].
  intros x y _ _ Hxy. exact Hxy.
Qed.

Lemma stableSort_ext {A : Type} (cmp1 cmp2 : A -> A -> Z) (l : list A) :
  (forall x y, cmp1 x y = cmp2 x y) -> stableSort cmp1 l = stableSort cmp2 l.
Proof.
  intros H. induction l as [|x l IH]; simpl; [reflexivity|].
  rewrite IH. generalize (stableSort cmp2 l). intros k.
  induction k as [|y k IHk]; simpl; [reflexivity|].
  rewrite (H x y), IHk. reflexivity.
Qed.

Lemma compareRefs_sameButCount (s1 s2 : list Annotation) (r1 r2 : nat) :
  Forall2 sameButCount s1 s2 -> compareRefs s1 r1 r2 = compareRefs s2 r1 r2.
Proof.
  intros H. unfold compareRefs.
  destruct (sameButCount_lookup s1 s2 r1 H) as [[E1 E2]|(a1 & a2 & E1 & E2 & Ha)];
    rewrite E1, E2; [reflexivity|].
  destruct (sameButCount_lookup s1 s2 r2 H) as [[F1 F2]|(b1 & b2 & F1 & F2 & Hb)];
    rewrite F1, F2; [reflexivity|].
  destruct (sameButCount_fields _ _ Ha) as [Hfa Hla].
  destruct (sameButCount_fields _ _ Hb) as [Hfb Hlb].
  unfold compareAnnotations. rewrite Hfa, Hla, Hfb, Hlb. reflexivity.
Qed.

(** Which annotations are grouped, and in which order they come out, does
    not depend on the counts. *)
Lemma groupAnnotations_ignores_counts (anns anns' : list Annotation) (cf : list string) :
  Forall2 sameButCount anns anns' ->
  fst (groupAnnotations anns cf) = fst (groupAnnotations anns' cf) /\
  Forall2 sameButCount (snd (groupAnnotations anns cf)) (snd (groupAnnotations anns' cf)).
Proof.
  intros H.
  assert (Hloop : Forall2 sameButCount (fst (groupLoop cf anns)) (fst (groupLoop cf anns'))
                  /\ snd (groupLoop cf anns) = snd (groupLoop cf anns')).
  { unfold groupLoop. rewrite <- (Forall2_length _ _ _ H).
    apply (fold_left_rel
             (fun st1 st2 => Forall2 sameButCount (fst st1) (fst st2)
                             /\ snd st1 = snd st2)).
    - intros s1 s2 i. apply groupStep_sameButCount.
    - split; [exact H | reflexivity]. }
  unfold groupAnnotations.
  destruct (groupLoop cf anns) as [s1 refs1], (groupLoop cf anns') as [s2 refs2].
  simpl in *. destruct Hloop as [Hs <-]. split; [|exact Hs].
  apply stableSort_ext. intros x y. apply compareRefs_sameButCount. exact Hs.
Qed.

Lemma candidates_places (cfg : TicsConfig) (s1 s2 : list Annotation) (refs : list nat) :
  Forall2 sameButCount s1 s2 ->
  map path (map (toReviewComment cfg) (deref s1 refs))
    = map path (map (toReviewComment cfg) (deref s2 refs)) /\
  map commentLine (map (toReviewComment cfg) (deref s1 refs))
    = map commentLine (map (toReviewComment cfg) (deref s2 refs)).
Proof.
  intros H. pose proof (deref_sameButCount s1 s2 refs H) as Hd.
  induction Hd as [|x y l1 l2 Hxy _ [IH1 IH2]]; [split; reflexivity|].
  destruct (sameButCount_fields _ _ Hxy) as [Hf Hl].
  simpl. rewrite IH1, IH2, Hf, Hl. split; reflexivity.
Qed.

(** A second call of the grouping on the array the first call leaves yields
    as many candidates as the first, with the same paths and lines in the
    same order: the two results can differ in the counts they show only. *)
Theorem grouping_twice_same_places (cfg : TicsConfig) (anns : list Annotation)
    (cf : list string) :
  map path (fst (createReviewComments cfg (snd (createReviewComments cfg anns cf)) cf))
    = map path (fst (createReviewComments cfg anns cf)) /\
  map commentLine
      (fst (createReviewComments cfg (snd (createReviewComments cfg anns cf)) cf))
    = map commentLine (fst (createReviewComments cfg anns cf)) /\
  fst (groupAnnotations (snd (createReviewComments cfg anns cf)) cf)
    = fst (groupAnnotations anns cf).
Proof.
  rewrite !createReviewComments_unfold. simpl.
  destruct (groupAnnotations_facts anns cf) as (Hstore & _).
  assert (H1 : Forall2 sameButCount anns (snd (groupAnnotations anns cf))).
  { eapply Forall2_impl; [exact Hstore|]. apply countChanged_sameButCount. }
  destruct (groupAnnotations_ignores_counts _ _ cf H1) as [Hrefs Hs].
  rewrite <- Hrefs.
  destruct (candidates_places cfg _ _ (fst (groupAnnotations anns cf)) Hs) as [P1 P2].
  split; [symmetry; exact P1|]. split; [symmetry; exact P2 | reflexivity].
Qed.

(** ** The path and the body of a candidate *)

Lemma replaceFirst_cons (pat : string) (ch : ascii) (s : string) :
  String.prefix pat (String ch s) = false ->
  replaceFirst pat (String ch s) = String ch (replaceFirst pat s).
Proof.
  intros H.
  change (replaceFirst pat (String ch s))
    with (if String.prefix pat (String ch s)
          then dropString (String.length pat) (String ch s)
          else String ch (replaceFirst pat s)).
  rewrite H. reflexivity.
Qed.

Lemma replaceFirst_absent (pat s : string) :
  includes s pat = false -> replaceFirst pat s = s.
Proof.
  induction s as [|ch s IH]; intros H.
  - rewrite includes_nil in H.
    change (replaceFirst pat "")
      with (if String.prefix pat "" then dropString (String.length pat) "" else "").
    rewrite H. reflexivity.
  - rewrite includes_cons in H. apply orb_false_iff in H. destruct H as [Hp Hs].
    rewrite (replaceFirst_cons _ _ _ Hp), (IH Hs). reflexivity.
Qed.

Lemma replaceFirst_first (pat s : string) :
  includes s pat = true ->
  exists p q, s = p ++ pat ++ q /\ replaceFirst pat s = p ++ q /\
              forall p' q', s = p' ++ pat ++ q' ->
                            (String.length p <= String.length p')%nat.
Proof.
  induction s as [|ch s IH]; intros H.
  - rewrite includes_nil in H. destruct (prefix_split _ _ H) as [q Hq].
    exists "", q. split; [exact Hq|]. split; [|intros; simpl; lia].
    rewrite Hq at 1. rewrite replaceFirst_prefix. reflexivity.
  - destruct (String.prefix pat (String ch s)) eqn:Hp.
    + destruct (prefix_split _ _ Hp) as [q Hq].
      exists "", q. split; [exact Hq|]. split; [|intros; simpl; lia].
      rewrite Hq at 1. rewrite replaceFirst_prefix. reflexivity.
    + rewrite includes_cons, Hp in H. simpl in H.
      destruct (IH H) as (p & q & Hs & Hr & Hmin).
      exists (String ch p), q. split; [rewrite Hs at 1; reflexivity|].
      split; [rewrite (replaceFirst_cons _ _ _ Hp), Hr; reflexivity|].
      intros p' q' E. destruct p' as [|c p'].
      * rewrite append_nil in E. rewrite E, prefix_append in Hp. discriminate.
      * rewrite append_cons in E. injection E as _ E'. simpl.
        apply le_n_S. apply (Hmin p' q'). exact E'.
Qed.

(** The path of a candidate: the fullPath itself when the prefix
    [HIE://project/branch/] does not occur in it; otherwise the fullPath
    without the first occurrence of the prefix, wherever that is. *)
Theorem candidate_path (cfg : TicsConfig) (a : Annotation) :
  (includes (fullPath a) (hiePrefix cfg) = false ->
   path (toReviewComment cfg a) = fullPath a) /\
  (includes (fullPath a) (hiePrefix cfg) = true ->
   exists p q, fullPath a = p ++ hiePrefix cfg ++ q /\
               path (toReviewComment cfg a) = p ++ q /\
               forall p' q', fullPath a = p' ++ hiePrefix cfg ++ q' ->
                             (String.length p <= String.length p')%nat).
Proof.
  split.
  - apply replaceFirst_absent.
  - apply replaceFirst_first.
Qed.

(** A fullPath of another branch is kept whole; a prefix in the middle of a
    fullPath is cut out. *)
Lemma candidate_path_witness :
  path (toReviewComment exampleConfig (exampleAnnotation "HIE://proj/dev/a.ts" 1 "x" 1))
    = "HIE://proj/dev/a.ts" /\
  exists p q, "x/HIE://proj/main/a.ts" = p ++ hiePrefix exampleConfig ++ q /\
              path (toReviewComment exampleConfig
                      (exampleAnnotation "x/HIE://proj/main/a.ts" 1 "x" 1)) = p ++ q /\
              forall p' q', "x/HIE://proj/main/a.ts" = p' ++ hiePrefix exampleConfig ++ q' ->
                            (String.length p <= String.length p')%nat.
Proof.
  split.
  - apply (proj1 (candidate_path exampleConfig
                    (exampleAnnotation "HIE://proj/dev/a.ts" 1 "x" 1))).
    reflexivity.
  - apply (proj2 (candidate_path exampleConfig
                    (exampleAnnotation "x/HIE://proj/main/a.ts" 1 "x" 1))).
    reflexivity.
Defined.

Lemma candidate_body_marker (cfg : TicsConfig) (a : Annotation) :
  startsWithMarker (mkPostedReviewComment 0 (body (toReviewComment cfg a))) = true.
Proof. reflexivity. Qed.

(** * Further properties of the posting protocol *)

Lemma awaitAll_order (env : Env) (fuel : nat) :
  forall (choices : list nat) (pending : list Pending) (u : list ReviewComment)
         (w : World),
    awaitAll env fuel choices pending u w =
      (Normal (u ++ flat_map (contribution env) (arrivalOrder fuel choices pending))%list,
       extend w (flat_map (resumeEvents env) (arrivalOrder fuel choices pending))).
Proof.
  induction fuel as [|fuel IH]; intros choices pending u w; simpl.
  - destruct (existsb isCreate pending); simpl;
      unfold ret; rewrite app_nil_r, extend_nil; reflexivity.
  - destruct (existsb isCreate pending); simpl;
      [|unfold ret; rewrite app_nil_r, extend_nil; reflexivity].
    destruct (pending !! (hd O choices mod length pending)%nat) as [p|];
      [|unfold ret; simpl; rewrite app_nil_r, extend_nil; reflexivity].
    unfold bind. rewrite resume_run, IH. simpl.
    rewrite extend_extend, <- app_assoc. reflexivity.
Qed.

Lemma arrivalOrder_perm (fuel : nat) :
  forall (choices : list nat) (pending : list Pending),
    (length pending <= fuel)%nat ->
    exists rest,
      Permutation pending (arrivalOrder fuel choices pending ++ rest) /\
      Forall (fun p => isCreate p = false) rest.
Proof.
  induction fuel as [|fuel IH]; intros choices pending Hlen.
  - destruct pending; [|simpl in Hlen; lia]. exists []. split; constructor.
  - simpl. destruct (existsb isCreate pending) eqn:Hex; simpl.
    + assert (Hpos : (0 < length pending)%nat).
      { destruct pending; [discriminate | simpl; lia]. }
      set (k := (hd O choices mod length pending)%nat).
      assert (Hk : (k < length pending)%nat) by (apply Nat.mod_upper_bound; lia).
      destruct (lookup_lt_is_Some_2 pending k Hk) as [p Hp]. rewrite Hp.
      destruct (IH (tl choices) (delete k pending)) as (rest & Hperm & Hrest).
      { rewrite length_delete by eauto. lia. }
      exists rest. split; [|exact Hrest].
      simpl. rewrite <- Hperm. apply delete_Permutation. exact Hp.
    + exists pending. split; [reflexivity|].
      apply Forall_forall. intros p Hin. apply list_elem_of_In in Hin.
      destruct (isCreate p) eqn:E; [|reflexivity].
      assert (existsb isCreate pending = true) by (apply existsb_exists; eauto).
      congruence.
Qed.

(** A run of [postReviewComments], with the callbacks it resumes. *)
Lemma postReviewComments_closed (gh : GithubConfig) (cfg : TicsConfig) (env : Env)
    (review : Review) (anns : list Annotation) (cf : list string) :
  run (postReviewComments gh cfg env review anns cf) anns =
    (Normal (flat_map (contribution env) (resumed gh cfg env review anns cf)),
     mkWorld
       (listEvents gh env ++ purgeEvents gh env
          ++ [Logged Header "Posting review comments."]
          ++ map Called (map (createRequest gh review)
                             (fst (createReviewComments cfg anns cf)))
          ++ flat_map (resumeEvents env) (resumed gh cfg env review anns cf)
          ++ [Logged Info "Posted review comments."])
       (snd (createReviewComments cfg anns cf))).
Proof.
  unfold run, postReviewComments, resumed, suspended.
  rewrite (bind_run _ _ _ _ _ (getPostedReviewComments_run gh env _)).
  assert (Hdel : (match (match listReply env with
                         | inr posted => Some posted | inl _ => None end) with
                  | Some posted => deletePreviousReviewComments gh posted
                  | None => ret []
                  end) (extend (mkWorld [] anns) (listEvents gh env))
                 = (Normal (deletesIssued gh env),
                    extend (mkWorld [] anns) (listEvents gh env ++ purgeEvents gh env))).
  { unfold purgeEvents, deletesIssued. destruct (listReply env) as [m|posted].
    - unfold ret. rewrite app_nil_r. reflexivity.
    - rewrite deletePreviousReviewComments_run, extend_extend. reflexivity. }
  rewrite (bind_run _ _ _ _ _ Hdel).
  destruct (createReviewComments cfg anns cf) as [comments anns'] eqn:Hcrc.
  simpl fst. simpl snd.
  set (w1 := extend _ (listEvents gh env ++ purgeEvents gh env)).
  assert (Hheap : setHeap anns' w1 = (Normal tt, mkWorld (trace w1) anns')) by reflexivity.
  rewrite (bind_run _ _ _ _ _ Hheap). unfold log.
  rewrite (bind_run _ _ _ _ _ (emit_run _ _)).
  rewrite (bind_run _ _ _ _ _ (createCallbacks_run gh review comments _)).
  rewrite (bind_run _ _ _ _ _ (awaitAll_order env _ _ _ _ _)).
  rewrite (bind_run _ _ _ _ _ (emit_run _ _)). unfold ret.
  f_equal. unfold w1, extend. simpl. f_equal.
  rewrite <- !app_assoc. reflexivity.
Qed.

Lemma resumed_perm (gh : GithubConfig) (cfg : TicsConfig) (env : Env)
    (review : Review) (anns : list Annotation) (cf : list string) :
  exists rest,
    Permutation (suspended gh cfg env review anns cf)
                (resumed gh cfg env review anns cf ++ rest) /\
    Forall (fun p => isCreate p = false) rest.
Proof. unfold resumed. apply arrivalOrder_perm. reflexivity. Qed.

(** The outcome of the delete requests has no influence on the result: two
    runs that differ only in how the delete requests are answered return the
    same comments. *)
Theorem delete_outcomes_do_not_affect_result (gh : GithubConfig) (cfg : TicsConfig)
    (env env' : Env) (review : Review) (anns : list Annotation) (cf : list string) :
  listReply env' = listReply env ->
  (forall i, createReply env' i = createReply env i) ->
  arrival env' = arrival env ->
  fst (run (postReviewComments gh cfg env' review anns cf) anns)
  = fst (run (postReviewComments gh cfg env review anns cf) anns).
Proof.
  intros Hlist Hcreate Harr. rewrite !postReviewComments_closed. simpl.
  assert (E : resumed gh cfg env' review anns cf = resumed gh cfg env review anns cf).
  { unfold resumed, suspended, deletesIssued. rewrite Hlist, Harr. reflexivity. }
  rewrite E. f_equal. apply flat_map_ext. intros [r j|r i c]; simpl; [reflexivity|].
  rewrite Hcreate. reflexivity.
Qed.

(** The run of [exampleEnv] with every delete request rejected instead. *)
Lemma delete_outcomes_do_not_affect_result_witness :
  fst (run (postReviewComments exampleGithub exampleConfig
              (mkEnv (listReply exampleEnv) (fun _ => Some "Not Found")
                     (createReply exampleEnv) (arrival exampleEnv))
              exampleReview [exampleAnnotation "/repo/a.ts" 5 "x" 1] ["a.ts"])
           [exampleAnnotation "/repo/a.ts" 5 "x" 1])
  = fst (run (postReviewComments exampleGithub exampleConfig exampleEnv exampleReview
                [exampleAnnotation "/repo/a.ts" 5 "x" 1] ["a.ts"])
             [exampleAnnotation "/repo/a.ts" 5 "x" 1]).
Proof.
  apply (delete_outcomes_do_not_affect_result exampleGithub exampleConfig exampleEnv
           (mkEnv (listReply exampleEnv) (fun _ => Some "Not Found")
                  (createReply exampleEnv) (arrival exampleEnv))
           exampleReview [exampleAnnotation "/repo/a.ts" 5 "x" 1] ["a.ts"]).
  - reflexivity.
  - intros i. reflexivity.
  - reflexivity.
Defined.

Lemma calls_app (t1 t2 : list Event) : calls (t1 ++ t2) = (calls t1 ++ calls t2)%list.
Proof. apply flat_map_app. Qed.

Lemma calls_Called (l : list Request) : calls (map Called l) = l.
Proof. induction l as [|r l IH]; [reflexivity|]. unfold calls in *. simpl. now rewrite IH. Qed.

Lemma calls_logged (level : LogLevel) (text : string) (t : list Event) :
  calls (Logged level text :: t) = calls t.
Proof. reflexivity. Qed.

Lemma calls_none_2 (t : list Event) :
  Forall (fun e => isCall e = false) t -> calls t = [].
Proof.
  induction 1 as [|e t He _ IH]; [reflexivity|].
  unfold calls in *. simpl. rewrite IH. destruct e; try discriminate; reflexivity.
Qed.

(** The requests of a run, in the order they are issued: one listing; when
    it succeeds, one delete request for each listed comment that starts with
    the marker; one create request for each candidate.  No request is issued
    twice: a rejected request is not tried again. *)
Theorem requests_of_a_run (gh : GithubConfig) (cfg : TicsConfig) (env : Env)
    (review : Review) (anns : list Annotation) (cf : list string) :
  calls (trace (snd (run (postReviewComments gh cfg env review anns cf) anns)))
  = (ListReviewComments (owner gh) (reponame gh) (pullRequestNumber gh)
       :: match listReply env with
          | inr posted => map (deleteRequest gh) (List.filter startsWithMarker posted)
          | inl _ => []
          end
       ++ map (createRequest gh review) (fst (createReviewComments cfg anns cf)))%list.
Proof.
  rewrite postReviewComments_closed. simpl snd. simpl trace.
  rewrite !calls_app, calls_logged, !calls_app, calls_Called.
  rewrite (calls_none_2 _ (resumeEvents_no_call env _)).
  unfold listEvents, purgeEvents, deletesIssued.
  destruct (listReply env) as [m|posted].
  - simpl. rewrite app_nil_r. reflexivity.
  - rewrite !calls_app, calls_Called. simpl. rewrite !app_nil_r. reflexivity.
Qed.

Lemma pendingCreates_lookup (gh : GithubConfig) (review : Review)
    (comments : list ReviewComment) (i0 k : nat) (c : ReviewComment) :
  comments !! k = Some c ->
  In (PendingCreate (createRequest gh review c) (i0 + k) c)
     (pendingCreates i0 (map (createRequest gh review) comments) comments).
Proof.
  revert i0 k. induction comments as [|c0 comments IH]; intros i0 k Hk; [discriminate|].
  destruct k as [|k]; simpl in *.
  - inversion Hk; subst. left. rewrite Nat.add_0_r. reflexivity.
  - right. rewrite <- Nat.add_succ_comm. apply IH. exact Hk.
Qed.

Lemma create_callback_resumed (gh : GithubConfig) (cfg : TicsConfig) (env : Env)
    (review : Review) (anns : list Annotation) (cf : list string)
    (i : nat) (c : ReviewComment) :
  fst (createReviewComments cfg anns cf) !! i = Some c ->
  In (PendingCreate (createRequest gh review c) i c) (resumed gh cfg env review anns cf).
Proof.
  intros Hc. destruct (resumed_perm gh cfg env review anns cf) as (rest & Hperm & Hrest).
  assert (Hin : In (PendingCreate (createRequest gh review c) i c)
                   (resumed gh cfg env review anns cf ++ rest)).
  { eapply Permutation_in; [exact Hperm|]. unfold suspended.
    apply in_or_app. right. apply (pendingCreates_lookup gh review _ O i c Hc). }
  apply in_app_or in Hin. destruct Hin as [H|H]; [exact H|].
  rewrite Forall_forall in Hrest. apply list_elem_of_In in H.
  specialize (Hrest _ H). discriminate.
Qed.

(** [postReviewComments] returns only after the reply to every create
    request has been handled: for each candidate the trace holds the reply,
    and when the request was rejected with message [m] it holds the debug
    line with [m], and the candidate is among the comments returned. *)
Theorem create_replies_handled_before_return (gh : GithubConfig) (cfg : TicsConfig)
    (env : Env) (review : Review) (anns : list Annotation) (cf : list string)
    (i : nat) (c : ReviewComment) :
  fst (createReviewComments cfg anns cf) !! i = Some c ->
  exists unposted w',
    run (postReviewComments gh cfg env review anns cf) anns = (Normal unposted, w') /\
    In (Settled (createRequest gh review c)
                (match createReply env i with None => true | Some _ => false end))
       (trace w') /\
    (forall m, createReply env i = Some m ->
               In (Logged Debug ("Could not post review comment: " ++ m)) (trace w') /\
               In c unposted).
Proof.
  intros Hc. rewrite postReviewComments_closed. eexists _, _. split; [reflexivity|].
  pose proof (create_callback_resumed gh cfg env review anns cf i c Hc) as Hin.
  simpl trace.
  assert (Hev : forall e,
             In e (resumeEvents env (PendingCreate (createRequest gh review c) i c)) ->
                  In e (listEvents gh env ++ purgeEvents gh env
                          ++ [Logged Header "Posting review comments."]
                          ++ map Called (map (createRequest gh review)
                                             (fst (createReviewComments cfg anns cf)))
                          ++ flat_map (resumeEvents env) (resumed gh cfg env review anns cf)
                          ++ [Logged Info "Posted review comments."])).
  { intros e He. do 4 (apply in_or_app; right). apply in_or_app. left.
    apply in_flat_map. eexists. split; [exact Hin | exact He]. }
  split.
  - apply Hev. simpl. destruct (createReply env i); left; reflexivity.
  - intros m Hm. split.
    + apply Hev. simpl. rewrite Hm. right. left. reflexivity.
    + apply in_flat_map. eexists. split; [exact Hin|]. simpl. rewrite Hm.
      left. reflexivity.
Qed.

(** The second candidate of a run in which its request is rejected. *)
Lemma create_replies_handled_before_return_witness :
  exists unposted w',
    run (postReviewComments exampleGithub exampleConfig failingEnv exampleReview
           [exampleAnnotation "/repo/a.ts" 5 "x" 1; exampleAnnotation "/repo/b.ts" 9 "y" 1]
           ["repo"])
        [exampleAnnotation "/repo/a.ts" 5 "x" 1; exampleAnnotation "/repo/b.ts" 9 "y" 1]
      = (Normal unposted, w') /\
    In (Settled (createRequest exampleGithub exampleReview
                   (toReviewComment exampleConfig (exampleAnnotation "/repo/b.ts" 9 "y" 1)))
                (match createReply failingEnv 1 with None => true | Some _ => false end))
       (trace w') /\
    (forall m, createReply failingEnv 1 = Some m ->
               In (Logged Debug ("Could not post review comment: " ++ m)) (trace w') /\
               In (toReviewComment exampleConfig (exampleAnnotation "/repo/b.ts" 9 "y" 1))
                  unposted).
Proof.
  apply (create_replies_handled_before_return exampleGithub exampleConfig failingEnv
           exampleReview
           [exampleAnnotation "/repo/a.ts" 5 "x" 1; exampleAnnotation "/repo/b.ts" 9 "y" 1]
           ["repo"] 1%nat
           (toReviewComment exampleConfig (exampleAnnotation "/repo/b.ts" 9 "y" 1))).
  reflexivity.
Defined.

(** ** Two runs in a row *)

(** The comments a run creates are purged by the next one: when every
    comment the API lists has the body of a candidate of some grouping, the
    run issues a delete request for each of them. *)
Theorem next_run_purges_created_comments (gh : GithubConfig) (cfg : TicsConfig)
    (env : Env) (review : Review) (anns : list Annotation) (cf : list string)
    (posted : list PostedReviewComment) :
  listReply env = inr posted ->
  Forall (fun pc => exists cfg0 anns0 cf0 c,
                      In c (fst (createReviewComments cfg0 anns0 cf0)) /\
                      postedBody pc = body c) posted ->
  deleteCalls (trace (snd (run (postReviewComments gh cfg env review anns cf) anns)))
  = map id posted.
Proof.
  intros Hlist Hown.
  destruct (run_calls gh cfg env review anns cf)
    as (unposted & before & after & Hrun & _ & _ & _ & _ & Hdelete & _).
  rewrite Hrun. simpl. rewrite Hdelete, Hlist. f_equal. clear Hlist.
  induction Hown as [|pc posted' (cfg0 & anns0 & cf0 & c & Hc & Hbody) _ IH];
    [reflexivity|].
  simpl. rewrite createReviewComments_unfold in Hc. simpl in Hc.
  apply in_map_iff in Hc. destruct Hc as (b & <- & _).
  assert (E : startsWithMarker pc = true).
  { unfold startsWithMarker. rewrite Hbody. reflexivity. }
  rewrite E. f_equal. exact IH.
Qed.

(** The comment the grouping of one annotation yields, listed with id 41. *)
Lemma next_run_purges_created_comments_witness :
  deleteCalls
    (trace (snd (run (postReviewComments exampleGithub exampleConfig
                        (mkEnv (inr [mkPostedReviewComment 41
                                       (body (toReviewComment exampleConfig
                                                (exampleAnnotation "/repo/a.ts" 5 "x" 2)))])
                               (fun _ => None) (fun _ => None) [])
                        exampleReview [] [])
                     [])))
  = map id [mkPostedReviewComment 41
              (body (toReviewComment exampleConfig
                       (exampleAnnotation "/repo/a.ts" 5 "x" 2)))].
Proof.
  apply (next_run_purges_created_comments exampleGithub exampleConfig
           (mkEnv (inr [mkPostedReviewComment 41
                          (body (toReviewComment exampleConfig
                                   (exampleAnnotation "/repo/a.ts" 5 "x" 2)))])
                  (fun _ => None) (fun _ => None) [])
           exampleReview [] []
           [mkPostedReviewComment 41
              (body (toReviewComment exampleConfig
                       (exampleAnnotation "/repo/a.ts" 5 "x" 2)))]).
  - reflexivity.
  - constructor; [|constructor].
    exists exampleConfig, [exampleAnnotation "/repo/a.ts" 5 "x" 2], ["a.ts"],
      (toReviewComment exampleConfig (exampleAnnotation "/repo/a.ts" 5 "x" 2)).
    split; [left; reflexivity | reflexivity].
Defined.

(** * Properties of configuration.ts *)

Lemma split_nonempty (sep : ascii) (s : string) : Configuration.split sep s <> [].
Proof.
  induction s as [|ch s IH]; simpl; [discriminate|].
  destruct (Ascii.eqb ch sep); [discriminate|].
  destruct (Configuration.split sep s); [contradiction | discriminate].
Qed.

(** Joining the parts of a split with the separator gives the string back. *)
Lemma split_join (sep : ascii) (s : string) :
  Configuration.join sep (Configuration.split sep s) = s.
Proof.
  induction s as [|ch s IH]; [reflexivity|].
  pose proof (split_nonempty sep s) as Hne. simpl.
  destruct (Ascii.eqb_spec ch sep) as [->|Hch].
  - destruct (Configuration.split sep s) as [|part parts]; [contradiction|].
    change (Configuration.join sep ("" :: part :: parts))
      with ("" ++ String sep (Configuration.join sep (part :: parts))).
    rewrite IH. reflexivity.
  - destruct (Configuration.split sep s) as [|part parts]; [contradiction|].
    destruct parts as [|part' parts].
    + simpl in *. rewrite IH. reflexivity.
    + change (Configuration.join sep (String ch part :: part' :: parts))
        with (String ch part ++ String sep (Configuration.join sep (part' :: parts))).
      change (Configuration.join sep (part :: part' :: parts))
        with (part ++ String sep (Configuration.join sep (part' :: parts))) in IH.
      rewrite append_cons, IH. reflexivity.
Qed.

Lemma prefix_cons (a b : ascii) (p s : string) :
  String.prefix (String a p) (String b s)
  = if ascii_dec a b then String.prefix p s else false.
Proof. reflexivity. Qed.

Lemma no_slash_cons (ch : ascii) (s : string) :
  includes (String ch s) "/" = false <-> ch <> "/"%char /\ includes s "/" = false.
Proof.
  rewrite includes_cons.
  change "/" with (String "/"%char EmptyString) at 1. rewrite prefix_cons.
  destruct (ascii_dec "/" ch) as [<-|Hne].
  - assert (E : String.prefix "" s = true) by (destruct s; reflexivity).
    rewrite E. simpl. split; [discriminate|]. intros [H _]. congruence.
  - simpl. split; [intros H; split; [congruence | exact H]|]. intros [_ H]. exact H.
Qed.

Lemma split_no_slash (s : string) :
  includes s "/" = false -> Configuration.split "/" s = [s].
Proof.
  induction s as [|ch s IH]; intros H; [reflexivity|].
  apply no_slash_cons in H. destruct H as [Hch Hs]. simpl.
  destruct (Ascii.eqb_spec ch "/"); [contradiction|].
  rewrite (IH Hs). reflexivity.
Qed.

Lemma split_first_slash (o rest : string) :
  includes o "/" = false ->
  Configuration.split "/" (o ++ String "/" rest) = o :: Configuration.split "/" rest.
Proof.
  induction o as [|ch o IH]; intros H.
  - rewrite append_nil. reflexivity.
  - apply no_slash_cons in H. destruct H as [Hch Ho].
    rewrite append_cons. simpl.
    destruct (Ascii.eqb_spec ch "/"); [contradiction|].
    rewrite (IH Ho). reflexivity.
Qed.

Lemma append_slash_nonempty (o rest : string) : (o ++ String "/" rest =? "")%string = false.
Proof. destruct o; reflexivity. Qed.

(** [GITHUB_REPOSITORY] set to [owner/name]: the object holds the whole value
    as [repo], the part before the slash as [owner] and the part after it as
    [reponame]. *)
Theorem github_owner_and_reponame (env : gmap string string) (payloadNumber o n : string) :
  env !! "GITHUB_REPOSITORY" = Some (o ++ String "/" n) ->
  includes o "/" = false ->
  includes n "/" = false ->
  Configuration.repo (Configuration.githubConfig env payloadNumber) = o ++ String "/" n /\
  Configuration.owner (Configuration.githubConfig env payloadNumber) = o /\
  Configuration.reponame (Configuration.githubConfig env payloadNumber) = Some n.
Proof.
  intros Henv Ho Hn. unfold Configuration.githubConfig, Configuration.envOrEmpty. simpl.
  rewrite Henv. simpl. rewrite append_slash_nonempty. simpl.
  rewrite (split_first_slash o n Ho), (split_no_slash n Hn). repeat split.
Qed.

Lemma github_owner_and_reponame_witness :
  Configuration.repo (Configuration.githubConfig
                        {["GITHUB_REPOSITORY" := "asml/tics-github-action"]} "")
    = "asml" ++ String "/" "tics-github-action" /\
  Configuration.owner (Configuration.githubConfig
                         {["GITHUB_REPOSITORY" := "asml/tics-github-action"]} "")
    = "asml" /\
  Configuration.reponame (Configuration.githubConfig
                            {["GITHUB_REPOSITORY" := "asml/tics-github-action"]} "")
    = Some "tics-github-action".
Proof.
  apply (github_owner_and_reponame {["GITHUB_REPOSITORY" := "asml/tics-github-action"]}
           "" "asml" "tics-github-action"); reflexivity.
Defined.

(** [GITHUB_REPOSITORY] without a slash: [owner] is the whole value and
    [reponame] is [undefined]; not set, or empty: both are the empty string. *)
Theorem github_repository_without_slash (env : gmap string string)
    (payloadNumber : string) :
  (forall v, env !! "GITHUB_REPOSITORY" = Some v -> v <> "" ->
             includes v "/" = false ->
             Configuration.owner (Configuration.githubConfig env payloadNumber) = v /\
             Configuration.reponame (Configuration.githubConfig env payloadNumber) = None) /\
  (env !! "GITHUB_REPOSITORY" = None \/ env !! "GITHUB_REPOSITORY" = Some "" ->
   Configuration.repo (Configuration.githubConfig env payloadNumber) = "" /\
   Configuration.owner (Configuration.githubConfig env payloadNumber) = "" /\
   Configuration.reponame (Configuration.githubConfig env payloadNumber) = Some "").
Proof.
  unfold Configuration.githubConfig, Configuration.envOrEmpty. simpl. split.
  - intros v Henv Hne Hv. rewrite Henv. simpl.
    destruct (String.eqb_spec v ""); [contradiction|]. simpl.
    rewrite (split_no_slash v Hv). split; reflexivity.
  - intros [H|H]; rewrite H; repeat split.
Qed.

Lemma github_repository_without_slash_witness :
  Configuration.owner (Configuration.githubConfig {["GITHUB_REPOSITORY" := "repo"]} "")
    = "repo" /\
  Configuration.reponame (Configuration.githubConfig {["GITHUB_REPOSITORY" := "repo"]} "")
    = None.
Proof.
  apply (proj1 (github_repository_without_slash {["GITHUB_REPOSITORY" := "repo"]} "")
           "repo"); [reflexivity | discriminate | reflexivity].
Defined.

Lemma truthy_Some (s : string) : truthy (Some s) = negb (s =? "")%string.
Proof. reflexivity. Qed.

(** The value [getHostnameVerification] decides on: the input when it is
    given, the variable [TICSHOSTNAMEVERIFICATION] otherwise. *)
Lemma hostname_effective (getInput : string -> string) (env : gmap string string) :
  (if truthy (Some (getInput "hostnameVerification"))
   then <["TICSHOSTNAMEVERIFICATION" := getInput "hostnameVerification"]> env
   else env) !! "TICSHOSTNAMEVERIFICATION"
  = if truthy (Some (getInput "hostnameVerification"))
    then Some (getInput "hostnameVerification")
    else env !! "TICSHOSTNAMEVERIFICATION".
Proof.
  destruct (truthy (Some (getInput "hostnameVerification"))); [|reflexivity].
  apply lookup_insert_eq.
Qed.

Lemma getHostnameVerification_facts (getInput : string -> string) (env : gmap string string) :
  let effective :=
    if truthy (Some (getInput "hostnameVerification"))
    then Some (getInput "hostnameVerification")
    else env !! "TICSHOSTNAMEVERIFICATION" in
  let o := Configuration.getHostnameVerification getInput env in
  (Configuration.result o = false <-> effective = Some "0" \/ effective = Some "false") /\
  (Configuration.result o = false ->
   Configuration.processEnv o !! "NODE_TLS_REJECT_UNAUTHORIZED" = Some "0" /\
   Configuration.infoLines o = ["Hostname Verification disabled"]) /\
  (Configuration.result o = true ->
   Configuration.processEnv o !! "NODE_TLS_REJECT_UNAUTHORIZED"
     = env !! "NODE_TLS_REJECT_UNAUTHORIZED" /\
   Configuration.infoLines o = []) /\
  Configuration.processEnv o !! "TICSHOSTNAMEVERIFICATION" = effective /\
  Configuration.ignoreSslError (Configuration.result o) = negb (Configuration.result o).
Proof.
  intros effective o. subst effective o.
  unfold Configuration.getHostnameVerification.
  pose proof (hostname_effective getInput env) as Heff.
  set (env1 := if truthy (Some (getInput "hostnameVerification"))
               then <["TICSHOSTNAMEVERIFICATION" := getInput "hostnameVerification"]> env
               else env) in *.
  assert (Hnode : env1 !! "NODE_TLS_REJECT_UNAUTHORIZED"
                  = env !! "NODE_TLS_REJECT_UNAUTHORIZED").
  { unfold env1. destruct (truthy (Some (getInput "hostnameVerification")));
      [|reflexivity].
    apply lookup_insert_ne. discriminate. }
  rewrite <- Heff.
  destruct (env1 !! "TICSHOSTNAMEVERIFICATION") as [v|] eqn:Hv; simpl.
  - destruct (String.eqb_spec v "0") as [->|H0]; simpl.
    + repeat split; auto; try discriminate.
      * apply lookup_insert_eq.
      * rewrite lookup_insert_ne by discriminate. exact Hv.
    + destruct (String.eqb_spec v "false") as [->|Hf]; simpl.
      * repeat split; auto; try discriminate.
        -- apply lookup_insert_eq.
        -- rewrite lookup_insert_ne by discriminate. exact Hv.
      * repeat split; auto; try discriminate.
        intros [E|E]; inversion E; contradiction.
  - repeat split; auto; try discriminate.
    intros [E|E]; discriminate.
Qed.


(** Hostname verification is switched off exactly when the value decided on
    (the input [hostnameVerification] when given, else the variable
    [TICSHOSTNAMEVERIFICATION]) is "0" or "false", in this spelling.  Then
    [NODE_TLS_REJECT_UNAUTHORIZED] is set to "0" and one line is written;
    otherwise that variable is left as it was and nothing is written.  The
    value decided on is what [TICSHOSTNAMEVERIFICATION] holds afterwards. *)
Theorem hostname_verification (getInput : string -> string) (env : gmap string string) :
  let effective :=
    if truthy (Some (getInput "hostnameVerification"))
    then Some (getInput "hostnameVerification")
    else env !! "TICSHOSTNAMEVERIFICATION" in
  let o := Configuration.getHostnameVerification getInput env in
  (Configuration.result o = false <-> effective = Some "0" \/ effective = Some "false") /\
  (Configuration.result o = false ->
   Configuration.processEnv o !! "NODE_TLS_REJECT_UNAUTHORIZED" = Some "0" /\
   Configuration.infoLines o = ["Hostname Verification disabled"]) /\
  (Configuration.result o = true ->
   Configuration.processEnv o !! "NODE_TLS_REJECT_UNAUTHORIZED"
     = env !! "NODE_TLS_REJECT_UNAUTHORIZED" /\
   Configuration.infoLines o = []) /\
  Configuration.processEnv o !! "TICSHOSTNAMEVERIFICATION" = effective /\
  Configuration.ignoreSslError (Configuration.result o) = negb (Configuration.result o).
Proof. apply getHostnameVerification_facts. Qed.

(** The decision persists in [process.env]: a later call, with the same
    input or without it, gives the same result and leaves [process.env] as
    the first call left it. *)
Theorem hostname_verification_persists (getInput getInput' : string -> string)
    (env : gmap string string) :
  getInput' "hostnameVerification" = "" \/
  getInput' "hostnameVerification" = getInput "hostnameVerification" ->
  let o := Configuration.getHostnameVerification getInput env in
  Configuration.result (Configuration.getHostnameVerification getInput'
                          (Configuration.processEnv o))
    = Configuration.result o /\
  Configuration.processEnv (Configuration.getHostnameVerification getInput'
                              (Configuration.processEnv o))
    = Configuration.processEnv o.
Proof.
  intros Hin o.
  destruct (getHostnameVerification_facts getInput env) as (Hiff & Hoff & _ & Heff & _).
  fold o in Hiff, Hoff, Heff.
  set (eff := if truthy (Some (getInput "hostnameVerification"))
              then Some (getInput "hostnameVerification")
              else env !! "TICSHOSTNAMEVERIFICATION") in *.
  assert (Hsame : truthy (Some (getInput' "hostnameVerification")) = true ->
                  getInput' "hostnameVerification" = getInput "hostnameVerification" ->
                  eff = Some (getInput' "hostnameVerification")).
  { intros T E. unfold eff. rewrite <- E, T. reflexivity. }
  clearbody o eff. unfold Configuration.getHostnameVerification.
  assert (Henv1 : (if truthy (Some (getInput' "hostnameVerification"))
                   then <["TICSHOSTNAMEVERIFICATION" := getInput' "hostnameVerification"]>
                          (Configuration.processEnv o)
                   else Configuration.processEnv o) = Configuration.processEnv o).
  { destruct (truthy (Some (getInput' "hostnameVerification"))) eqn:T; [|reflexivity].
    apply insert_id. rewrite Heff. destruct Hin as [E|E].
    - rewrite E in T. discriminate.
    - exact (Hsame eq_refl E). }
  rewrite Henv1, Heff.
  destruct eff as [v|].
  - destruct ((v =? "0")%string || (v =? "false")%string) eqn:B; simpl.
    + assert (R : Configuration.result o = false).
      { apply Hiff. apply orb_true_iff in B.
        destruct B as [B|B]; apply String.eqb_eq in B; subst v; auto. }
      split; [symmetry; exact R|]. apply insert_id. apply (proj1 (Hoff R)).
    + split; [|reflexivity]. destruct (Configuration.result o) eqn:R; [reflexivity|].
      destruct (proj1 Hiff eq_refl) as [E|E]; inversion E; subst v; discriminate.
  - simpl. split; [|reflexivity]. destruct (Configuration.result o) eqn:R; [reflexivity|].
    destruct (proj1 Hiff eq_refl) as [E|E]; discriminate.
Qed.

Lemma hostname_verification_persists_witness :
  let o := Configuration.getHostnameVerification
             (fun name => if (name =? "hostnameVerification")%string then "false" else "")
             ∅ in
  Configuration.result (Configuration.getHostnameVerification (fun _ => "")
                          (Configuration.processEnv o))
    = Configuration.result o /\
  Configuration.processEnv (Configuration.getHostnameVerification (fun _ => "")
                              (Configuration.processEnv o))
    = Configuration.processEnv o.
Proof.
  apply (hostname_verification_persists
           (fun name => if (name =? "hostnameVerification")%string then "false" else "")
           (fun _ => "") ∅).
  left. reflexivity.
Defined.

(** A call on an empty [process.env] with the input "False": verification
    stays on, and nothing is written. *)
Example hostname_verification_is_case_sensitive :
  Configuration.getHostnameVerification
    (fun name => if (name =? "hostnameVerification")%string then "False" else "") ∅
  = Configuration.mkOutcome true {["TICSHOSTNAMEVERIFICATION" := "False"]} [].
Proof. reflexivity. Qed.

(** ** viewerUrl *)

Lemma stripTrailingSlashes_spec (s : string) :
  exists k, s = Configuration.stripTrailingSlashes s ++ Configuration.slashes k.
Proof.
  induction s as [|ch s [k IH]]; [exists O; reflexivity|].
  simpl. destruct (Ascii.eqb_spec ch "/") as [->|Hch]; simpl.
  - destruct (String.eqb_spec (Configuration.stripTrailingSlashes s) "") as [E|E].
    + exists (S k). rewrite E, append_nil in IH. rewrite append_nil. simpl.
      rewrite <- IH. reflexivity.
    + exists k. rewrite append_cons, <- IH. reflexivity.
  - exists k. rewrite append_cons, <- IH. reflexivity.
Qed.

Lemma stripTrailingSlashes_no_slash (s t : string) :
  Configuration.stripTrailingSlashes s <> t ++ "/".
Proof.
  revert t. induction s as [|ch s IH]; intros t; simpl.
  - destruct t; discriminate.
  - destruct (Ascii.eqb_spec ch "/") as [->|Hch]; simpl.
    + destruct (String.eqb_spec (Configuration.stripTrailingSlashes s) "") as [E|E].
      * destruct t; discriminate.
      * destruct t as [|c t].
        -- rewrite append_nil. intros H. inversion H. contradiction.
        -- rewrite append_cons. intros H. inversion H. eapply IH. eassumption.
    + destruct t as [|c t].
      * rewrite append_nil. intros H. inversion H. contradiction.
      * rewrite append_cons. intros H. inversion H. eapply IH. eassumption.
Qed.

(** [viewerUrl] is [baseUrl] when the input is empty; otherwise it is the
    input without the slashes at its end: the input is [viewerUrl] followed
    by slashes only, and [viewerUrl] does not end with a slash. *)
Theorem viewer_url (ticsViewerUrl baseUrl : string) :
  (ticsViewerUrl = "" -> Configuration.viewerUrl ticsViewerUrl baseUrl = baseUrl) /\
  (ticsViewerUrl <> "" ->
   (exists k, ticsViewerUrl
              = Configuration.viewerUrl ticsViewerUrl baseUrl ++ Configuration.slashes k) /\
   forall t, Configuration.viewerUrl ticsViewerUrl baseUrl <> t ++ "/").
Proof.
  unfold Configuration.viewerUrl. rewrite truthy_Some. split.
  - intros ->. reflexivity.
  - intros Hne. destruct (String.eqb_spec ticsViewerUrl ""); [contradiction|]. simpl.
    split; [apply stripTrailingSlashes_spec | apply stripTrailingSlashes_no_slash].
Qed.

Lemma viewer_url_witness :
  (exists k, "https://tics.example.com/viewer//"
             = Configuration.viewerUrl "https://tics.example.com/viewer//" "base"
               ++ Configuration.slashes k) /\
  forall t, Configuration.viewerUrl "https://tics.example.com/viewer//" "base" <> t ++ "/".
Proof.
  apply (proj2 (viewer_url "https://tics.example.com/viewer//" "base")). discriminate.
Defined.

(** An input that holds slashes only gives the empty string, not [baseUrl]. *)
Theorem viewer_url_of_slashes (k : nat) (baseUrl : string) :
  Configuration.viewerUrl (Configuration.slashes (S k)) baseUrl = "".
Proof.
  unfold Configuration.viewerUrl. simpl.
  assert (H : forall n, Configuration.stripTrailingSlashes (Configuration.slashes n) = "").
  { induction n as [|n IH]; [reflexivity|]. simpl. rewrite IH. reflexivity. }
  rewrite (H k). reflexivity.
Qed.

(** ** The order of the paths *)

(** Two annotations that carry the prefix, given in the order z.ts, a.ts. *)
Lemma sort_order_on_paths_witness :
  (strLt (path (toReviewComment exampleConfig
                  (exampleAnnotation "HIE://proj/main/a.ts" 1 "x" 1)))
         (path (toReviewComment exampleConfig
                  (exampleAnnotation "HIE://proj/main/z.ts" 1 "x" 1))) -> (0 < 1)%nat) /\
  (path (toReviewComment exampleConfig (exampleAnnotation "HIE://proj/main/a.ts" 1 "x" 1))
   = path (toReviewComment exampleConfig (exampleAnnotation "HIE://proj/main/z.ts" 1 "x" 1)) ->
   commentLine (toReviewComment exampleConfig
                  (exampleAnnotation "HIE://proj/main/a.ts" 1 "x" 1))
   < commentLine (toReviewComment exampleConfig
                    (exampleAnnotation "HIE://proj/main/z.ts" 1 "x" 1)) -> (0 < 1)%nat).
Proof.
  apply (sort_order_on_paths exampleConfig
           [exampleAnnotation "HIE://proj/main/z.ts" 1 "x" 1;
            exampleAnnotation "HIE://proj/main/a.ts" 1 "x" 1] ["ts"] O 1%nat).
  - intros a [<-|[<-|[]]] _; reflexivity.
  - reflexivity.
  - reflexivity.
Defined.
